(** * Face attendance: the attendance service and the face-matcher mock

    A shallow embedding of [lib/attendance-service] (the registry of users and
    the per-day attendance ledger kept in the browser's localStorage) and of
    [lib/face-recognition-mock] (the stand-in face matcher), followed by the
    properties of the identity matching and attendance ledger core.

    Conventions of the embedding.
    - A JavaScript number is a rational [Q]; the literals [0.3], [1.0] and
      [0.6] are the rationals they denote.  Where the code multiplies two
      numbers ([Math.random() * length]) the product is rounded as a binary64
      product is, to the nearest double with ties to even ([Float64]).
    - An ISO-8601 timestamp string produced by [new Date().toISOString()] is
      the number of milliseconds since the epoch ([Z]): [new Date(s).getTime()]
      gives that number back.  The text before the ["T"] of such a string is
      the UTC calendar date, represented by its day number ([date_of]).
    - [uuidv4()], [new Date()] and [Math.random()] are read from the
      environment: every call site takes the value it reads as an argument.
    - localStorage is a state threaded through every operation; an access may
      throw, so operations live in a state-and-exception monad [Js]. *)

From Stdlib Require Import ZArith QArith Qround Qpower Qfield Lia Lqa.
From stdpp Require Import base decidable option list sorting strings.

Local Open Scope Z_scope.

(** ** localStorage and the monad of operations *)

Module Storage.

(** [UserData] of the service: [faceDescriptor] is a [number[]]. *)
Record UserData := mkUser {
  u_id : string;
  u_name : string;
  u_email : string;
  u_faceDescriptor : list Q;
  u_registeredAt : Z
}.

(** [AttendanceRecord] of the service. *)
Record AttendanceRecord := mkRecord {
  r_id : string;
  r_userId : string;
  r_userName : string;
  r_timestamp : Z;
  r_date : Z
}.

(** What one localStorage key holds: nothing ([getItem] gives [null], or the
    empty text, which every read of the service treats alike: [!item] and
    [item || "[]"]), a text that [JSON.parse] rejects, or the
    [JSON.stringify] of an array of records.  The service only ever writes
    arrays of its own records under its two keys, and it declares what it
    parses as [UserData[]] and [AttendanceRecord[]].  A key that some other
    writer filled with valid JSON of another shape (["null"], ["{}"], ["0"],
    an array of other things) has no case here: the statements below are
    about stores whose two keys are each of the three kinds. *)
Inductive Slot (A : Type) : Type :=
| Absent
| Garbled
| Holds (v : A).
Arguments Absent {A}.
Arguments Garbled {A}.
Arguments Holds {A} v.

(** The two keys of [STORAGE_KEYS]. *)
Record LocalStorage := mkStorage {
  users_item : Slot (list UserData);
  attendance_item : Slot (list AttendanceRecord)
}.

(** A write that the service can attempt: the ["test"] probe of
    [initializeStorage], or a [setItem] on one of the two keys. *)
Inductive Write :=
| WProbe
| WUsers (v : list UserData)
| WAttendance (v : list AttendanceRecord).

(** The persistence medium during one call.  [online = false]: there is no
    [window] or every localStorage access throws.  [accepts w = false]:
    [setItem] throws on that write (quota exceeded). *)
Record Medium := mkMedium {
  online : bool;
  accepts : Write → bool
}.

Inductive Exn :=
| JsError (message : string)   (* [new Error(message)] *)
| DOMException                 (* thrown by a localStorage access *)
| SyntaxError                  (* thrown by [JSON.parse] *)
| TypeError.                   (* property read on [undefined] *)

Inductive Outcome (A : Type) : Type :=
| Returned (a : A)
| Thrown (e : Exn).
Arguments Returned {A} a.
Arguments Thrown {A} e.

Definition Js (A : Type) : Type := LocalStorage → Outcome A * LocalStorage.

Definition ret {A} (a : A) : Js A := λ s, (Returned a, s).

Definition throw {A} (e : Exn) : Js A := λ s, (Thrown e, s).

Definition bind {A B} (c : Js A) (k : A → Js B) : Js B :=
  λ s, match c s with
       | (Returned a, s') => k a s'
       | (Thrown e, s') => (Thrown e, s')
       end.

(** [try { c } catch (e) { h e }]: the handler runs in the state the failing
    block left behind. *)
Definition try_catch {A} (c : Js A) (h : Exn → Js A) : Js A :=
  λ s, match c s with
       | (Returned a, s') => (Returned a, s')
       | (Thrown e, s') => h e s'
       end.

Declare Scope js_scope.
Delimit Scope js_scope with js.
Notation "'let*' x ':=' c 'in' k" := (bind c (λ x, k))
  (at level 10, x name, c at level 100, k at level 200) : js_scope.
Notation "c '>>' k" := (bind c (λ _, k))
  (at level 65, right associativity) : js_scope.

Local Open Scope js_scope.

(** [localStorage.setItem("test", "test"); localStorage.removeItem("test")] *)
Definition probe (m : Medium) : Js unit :=
  λ s, if online m && accepts m WProbe then (Returned tt, s) else (Thrown DOMException, s).

(** [localStorage.getItem(STORAGE_KEYS.USERS)] *)
Definition getItem_users (m : Medium) : Js (Slot (list UserData)) :=
  λ s, if online m then (Returned (users_item s), s) else (Thrown DOMException, s).

(** [localStorage.getItem(STORAGE_KEYS.ATTENDANCE)] *)
Definition getItem_attendance (m : Medium) : Js (Slot (list AttendanceRecord)) :=
  λ s, if online m then (Returned (attendance_item s), s) else (Thrown DOMException, s).

(** [localStorage.setItem(STORAGE_KEYS.USERS, JSON.stringify(v))] *)
Definition setItem_users (m : Medium) (v : list UserData) : Js unit :=
  λ s, if online m && accepts m (WUsers v)
       then (Returned tt, mkStorage (Holds v) (attendance_item s))
       else (Thrown DOMException, s).

(** [localStorage.setItem(STORAGE_KEYS.ATTENDANCE, JSON.stringify(v))] *)
Definition setItem_attendance (m : Medium) (v : list AttendanceRecord) : Js unit :=
  λ s, if online m && accepts m (WAttendance v)
       then (Returned tt, mkStorage (users_item s) (Holds v))
       else (Thrown DOMException, s).

(** [JSON.parse(item || "[]")] *)
Definition JSON_parse {A} (item : Slot (list A)) : Js (list A) :=
  match item with
  | Absent => ret []
  | Garbled => throw SyntaxError
  | Holds v => ret v
  end.

(** [!localStorage.getItem(key)] *)
Definition missing {A} (item : Slot A) : bool :=
  match item with
  | Absent => true
  | _ => false
  end.

(** The list a key stands for when it can be read; a garbled key stands for
    no list at all and is given the empty one. *)
Definition slot_list {A} (item : Slot (list A)) : list A :=
  match item with
  | Holds v => v
  | _ => []
  end.

Definition identities (s : LocalStorage) : list UserData := slot_list (users_item s).
Definition events (s : LocalStorage) : list AttendanceRecord := slot_list (attendance_item s).

(** A fresh browser profile: neither key is set. *)
Definition fresh : LocalStorage := mkStorage Absent Absent.

(** [Array.prototype.sort(compareFn)]: the sort is stable, and for a
    comparator that is a total preorder the stable result is unique; it is
    computed here by insertion from the right, an element going in front of
    the first one it does not have to follow. *)
Fixpoint sort_insert {A} (compareFn : A → A → Z) (x : A) (l : list A) : list A :=
  match l with
  | [] => [x]
  | y :: l' => if compareFn x y <=? 0 then x :: y :: l' else y :: sort_insert compareFn x l'
  end.

Fixpoint Array_sort {A} (compareFn : A → A → Z) (l : list A) : list A :=
  match l with
  | [] => []
  | x :: l' => sort_insert compareFn x (Array_sort compareFn l')
  end.

End Storage.

(** ** Binary64 numbers *)

Module Float64.

(** A finite double: [mantissa * 2 ^ exponent], with a mantissa of at most 53
    bits and an exponent in the range of binary64. *)
Record Double := mkDouble {
  mantissa : Z;
  exponent : Z;
  double_ok : (Z.abs mantissa <? 2 ^ 53) && (-1074 <=? exponent) && (exponent <=? 971) = true
}.

Definition value (d : Double) : Q := (inject_Z (mantissa d) * 2 ^ exponent d)%Q.

(** The nearest integer, the even one of two that are equally near. *)
Definition round_half_even (x : Q) : Z :=
  let f := Qfloor x in
  match (x - inject_Z f ?= 1 # 2)%Q with
  | Lt => f
  | Gt => f + 1
  | Eq => if Z.even f then f else f + 1
  end.

(** For [x > 0], the [e] with [2 ^ e <= x < 2 ^ (e + 1)]. *)
Definition leading_exponent (x : Q) : Z :=
  let e := Z.log2 (Qnum x) - Z.log2 (Zpos (Qden x)) in
  if Qle_bool (2 ^ e) x then e else e - 1.

(** Rounding of [x > 0] to 53 significant bits, the spacing never finer than
    [2 ^ -1074]. *)
Definition round_positive (x : Q) : Q :=
  let u := (2 ^ (Z.max (leading_exponent x) (-1022) - 52))%Q in
  (inject_Z (round_half_even (x / u)) * u)%Q.

(** The double nearest to [x], ties to even.  Overflow to [Infinity] is not
    represented: the products taken below are smaller than an array length. *)
Definition to_double (x : Q) : Q :=
  match (x ?= 0)%Q with
  | Eq => 0%Q
  | Gt => round_positive x
  | Lt => (- round_positive (- x))%Q
  end.

(** [a * n] for a double [a] and an array length [n], itself an exact
    double: the exact product, rounded. *)
Definition times (a : Double) (n : nat) : Q :=
  to_double (value a * inject_Z (Z.of_nat n)).

(** The greatest double below 1. *)
Definition below_one : Q := (1 - (1 # 9007199254740992))%Q.

(** The doubles [0], [0.5] and [0.6666666666666666]. *)
Definition zero : Double := mkDouble 0 0 eq_refl.
Definition one_half : Double := mkDouble 1 (-1) eq_refl.
Definition two_thirds : Double := mkDouble 6004799503160661 (-53) eq_refl.

End Float64.

(** ** The face-recognition mock *)

Module FaceRecognitionMock.
Import Storage Float64.

(** [MockLabeledFaceDescriptors]: the constructor copies [label] to [name]. *)
Record MockLabeledFaceDescriptors := mkLabeled {
  lfd_label : string;
  lfd_descriptors : list (list Q);
  lfd_name : string
}.

Definition new_MockLabeledFaceDescriptors (label : string) (descriptors : list (list Q)) :
    MockLabeledFaceDescriptors :=
  mkLabeled label descriptors label.

(** What [findBestMatch] returns. *)
Record MatchResult := mkMatch {
  label : string;
  distance : Q
}.

(** [a[i]] for an integer [i]: [undefined] outside the array. *)
Definition array_get {A} (a : list A) (i : Z) : option A :=
  if i <? 0 then None else a !! Z.to_nat i.

(** [mockFindBestMatch] of [mockFaceDetection]: [random] is the double that
    [Math.random()] returns; [labeledDescriptors = None] is a missing ([undefined] or
    [null]) argument. *)
Definition mockFindBestMatch (random : Double) (descriptor : list Q)
    (labeledDescriptors : option (list MockLabeledFaceDescriptors)) : Outcome MatchResult :=
  match labeledDescriptors with
  | Some lds =>
      if (0 <? length lds)%nat then
        let randomIndex := Qfloor (times random (length lds)) in
        match array_get lds randomIndex with
        | Some selectedDescriptor => Returned (mkMatch (lfd_label selectedDescriptor) (3 # 10))
        | None => Thrown TypeError
        end
      else Returned (mkMatch "unknown" 1)
  | None => Returned (mkMatch "unknown" 1)
  end.

Record MockFaceMatcher := mkMatcher {
  _labeledDescriptors : list MockLabeledFaceDescriptors;
  _distanceThreshold : Q
}.

(** [new MockFaceMatcher(labeledDescriptors, distanceThreshold = 0.6)] *)
Definition new_MockFaceMatcher (labeledDescriptors : list MockLabeledFaceDescriptors)
    (distanceThreshold : option Q) : MockFaceMatcher :=
  mkMatcher labeledDescriptors (default (6 # 10) distanceThreshold).

(** [MockFaceMatcher.findBestMatch] *)
Definition findBestMatch (this : MockFaceMatcher) (descriptor : list Q) : Outcome MatchResult :=
  if (0 <? length (_labeledDescriptors this))%nat then
    match array_get (_labeledDescriptors this) 0 with
    | Some first => Returned (mkMatch (lfd_label first) (3 # 10))
    | None => Thrown TypeError
    end
  else Returned (mkMatch "unknown" 1).

(** *** The matcher the specification describes, for comparison

    Candidates are (label, embedding) pairs.  Distances are compared through
    their squares, which are rational. *)




(** A candidate as the service hands it to the matcher. *)
Definition labeled (c : string * list Q) : MockLabeledFaceDescriptors :=
  new_MockLabeledFaceDescriptors (fst c) [snd c].

(** The candidates and the query of the scenario of the specification. *)
Definition scenario_candidates : list (string * list Q) :=
  [("u1", [0; 0; 0]%Q); ("u2", [10; 10; 10]%Q)].

Definition scenario_query : list Q := [0; 0; 1 # 10]%Q.

End FaceRecognitionMock.

(** ** The attendance service *)

Module AttendanceService.
Import Storage FaceRecognitionMock.
Local Open Scope js_scope.

Record AttendanceStatus := mkStatus {
  markedToday : bool;
  lastMarked : option Z
}.

(** The argument of [registerUser]. *)
Record Registration := mkRegistration {
  name : string;
  email : string;
  faceDescriptor : list Q
}.

(** [getAllUsers] returns users without their face descriptors. *)
Record UserSummary := mkSummary {
  s_id : string;
  s_name : string;
  s_email : string;
  s_registeredAt : Z
}.

Definition ms_per_day : Z := 86400000.

(** [t.toISOString().split("T")[0]]: the UTC calendar date of [t]. *)
Definition date_of (t : Z) : Z := t / ms_per_day.

(** [initializeStorage]: the early return without a [window] and the outer
    [catch] both leave the store as it is; a medium that is not [online]
    stands for either. *)
Definition initializeStorage (m : Medium) : Js unit :=
  try_catch
    (probe m >>
     let* u := getItem_users m in
     (if missing u then setItem_users m [] else ret tt) >>
     let* a := getItem_attendance m in
     (if missing a then setItem_attendance m [] else ret tt) >>
     try_catch (let* u := getItem_users m in JSON_parse u >> ret tt)
               (λ _, setItem_users m []) >>
     try_catch (let* a := getItem_attendance m in JSON_parse a >> ret tt)
               (λ _, setItem_attendance m []))
    (λ _, ret tt).

(** The [try] block of [registerUser]. *)
Definition registerUser_try (m : Medium) (uuid : string) (now : Z) (userData : Registration) :
    Js UserData :=
  let* users :=
    try_catch (let* item := getItem_users m in JSON_parse item)
              (λ _, setItem_users m [] >> ret []) in
  match list_find (λ user, u_email user = email userData) users with
  | Some (i, existingUser) =>
      let existingUser' :=
        mkUser (u_id existingUser) (name userData) (u_email existingUser)
               (faceDescriptor userData) now in
      setItem_users m (<[i := existingUser']> users) >>
      ret existingUser'
  | None =>
      let newUser := mkUser uuid (name userData) (email userData) (faceDescriptor userData) now in
      setItem_users m (users ++ [newUser]) >>
      ret newUser
  end.

(** The [catch] block of [registerUser]. *)
Definition registerUser_catch (m : Medium) (uuid : string) (now : Z) (userData : Registration) :
    Js UserData :=
  let fallbackUser := mkUser uuid (name userData) (email userData) (faceDescriptor userData) now in
  try_catch (setItem_users m [fallbackUser]) (λ _, ret tt) >>
  ret fallbackUser.

(** [registerUser]: [uuid], [now] are read on the way through the [try]
    block, [uuid_fallback], [now_fallback] in the [catch] block. *)
Definition registerUser (m : Medium) (uuid uuid_fallback : string) (now now_fallback : Z)
    (userData : Registration) : Js UserData :=
  initializeStorage m >>
  try_catch (registerUser_try m uuid now userData)
            (λ _, registerUser_catch m uuid_fallback now_fallback userData).

(** [getUsersData]: [fround] is the rounding done by [new Float32Array]. *)
Definition getUsersData (fround : Q → Q) (m : Medium) : Js (list MockLabeledFaceDescriptors) :=
  initializeStorage m >>
  let* item := getItem_users m in
  let* users := JSON_parse item in
  if (length users =? 0)%nat then ret []
  else ret ((λ user, new_MockLabeledFaceDescriptors (u_id user) [fround <$> u_faceDescriptor user])
              <$> users).

(** [record.userId === userId && record.date === today] *)
Definition marked_on (userId : string) (today : Z) (record : AttendanceRecord) : bool :=
  bool_decide (r_userId record = userId) && bool_decide (r_date record = today).

(** [new Date(b.timestamp).getTime() - new Date(a.timestamp).getTime()] *)
Definition newest_first (a b : AttendanceRecord) : Z := r_timestamp b - r_timestamp a.

Definition checkAttendanceStatus (m : Medium) (now : Z) (userId : string) : Js AttendanceStatus :=
  initializeStorage m >>
  let* item := getItem_attendance m in
  let* attendanceRecords := JSON_parse item in
  let today := date_of now in
  let todayRecord := list_find (λ record, marked_on userId today record = true) attendanceRecords in
  let userRecords := filter (λ record, r_userId record = userId) attendanceRecords in
  let lastRecord :=
    if (0 <? length userRecords)%nat then Array_sort newest_first userRecords !! 0%nat else None in
  ret (mkStatus (bool_decide (is_Some todayRecord))
                (match lastRecord with
                 | Some r => Some (r_timestamp r)
                 | None => None
                 end)).

(** [markAttendance]: [now_today] is the clock read for [today], [now_stamp]
    the one for the new record's [timestamp].  [None] is [undefined]. *)
Definition markAttendance (m : Medium) (uuid : string) (now_today now_stamp : Z)
    (userId : string) : Js (option AttendanceRecord) :=
  initializeStorage m >>
  let* uitem := getItem_users m in
  let* users := JSON_parse uitem in
  let* aitem := getItem_attendance m in
  let* attendanceRecords := JSON_parse aitem in
  match list_find (λ u, u_id u = userId) users with
  | None => throw (JsError "User not found")
  | Some (_, user) =>
      let today := date_of now_today in
      let alreadyMarked := existsb (marked_on userId today) attendanceRecords in
      if alreadyMarked then
        let existingRecord :=
          list_find (λ record, marked_on userId today record = true) attendanceRecords in
        ret (snd <$> existingRecord)
      else
        let newRecord := mkRecord uuid (u_id user) (u_name user) now_stamp today in
        setItem_attendance m (attendanceRecords ++ [newRecord]) >>
        ret (Some newRecord)
  end.

Definition getAttendanceRecords (m : Medium) : Js (list AttendanceRecord) :=
  initializeStorage m >>
  let* item := getItem_attendance m in
  let* records := JSON_parse item in
  ret (Array_sort newest_first records).

Definition getAllUsers (m : Medium) : Js (list UserSummary) :=
  initializeStorage m >>
  let* item := getItem_users m in
  let* users := JSON_parse item in
  ret ((λ user, mkSummary (u_id user) (u_name user) (u_email user) (u_registeredAt user)) <$> users).

(** One call of an exported operation, as a transition of localStorage. *)
Inductive step : LocalStorage → LocalStorage → Prop :=
| step_registerUser m uuid uuid' now now' userData s :
    step s (snd (registerUser m uuid uuid' now now' userData s))
| step_getUsersData fround m s :
    step s (snd (getUsersData fround m s))
| step_checkAttendanceStatus m now userId s :
    step s (snd (checkAttendanceStatus m now userId s))
| step_markAttendance m uuid now now' userId s :
    step s (snd (markAttendance m uuid now now' userId s))
| step_getAttendanceRecords m s :
    step s (snd (getAttendanceRecords m s))
| step_getAllUsers m s :
    step s (snd (getAllUsers m s)).

(** The stores the service can produce from a fresh profile. *)
Inductive reachable : LocalStorage → Prop :=
| reachable_fresh : reachable fresh
| reachable_step s s' : reachable s → step s s' → reachable s'.

(** At most one record per (user, date), and at most one user per email. *)
Definition ledger_unique (records : list AttendanceRecord) : Prop :=
  NoDup ((λ r, (r_userId r, r_date r)) <$> records).

Definition emails_unique (users : list UserData) : Prop :=
  NoDup (u_email <$> users).

Definition store_invariant (s : LocalStorage) : Prop :=
  ledger_unique (events s) ∧ emails_unique (identities s).

(** A medium on which every access succeeds. *)
Definition works (m : Medium) : Prop :=
  online m = true ∧ ∀ w, accepts m w = true.

Definition healthy : Medium := mkMedium true (λ _, true).

(** Both keys can be read after [initializeStorage]: the medium is online,
    and either it takes the repairing writes or no key is garbled. *)
Definition readable (m : Medium) (s : LocalStorage) : Prop :=
  online m = true ∧
  ((∀ w, accepts m w = true) ∨ (users_item s ≠ Garbled ∧ attendance_item s ≠ Garbled)).

(** What [initializeStorage] may do to a key: leave it, or put ["[]"] where
    there was no text or a garbled one. *)
Definition item_kept {A} (before after : Slot (list A)) : Prop :=
  after = before ∨ (after = Holds [] ∧ (before = Absent ∨ before = Garbled)).

(** The store after [initializeStorage] on a medium that works. *)
Definition initialized (s : LocalStorage) : LocalStorage :=
  mkStorage (Holds (identities s)) (Holds (events s)).

(** [c] keeps [I] on every exit, and a value it returns satisfies [Q]. *)
Definition keeps {A} (I : LocalStorage → Prop) (c : Js A) (Q : A → Prop) : Prop :=
  ∀ s, I s → match c s with
             | (Returned a, s') => I s' ∧ Q a
             | (Thrown _, s') => I s'
             end.

(** Sample data: Bob, registered, marks attendance on 2024-01-01 at 09:00 and
    again at 17:00 (UTC), and on the next day; Alice registers twice. *)
Definition bob : UserData := mkUser "u-1" "Bob" "bob@x.com" [1; 0; 0]%Q 1704000000000.
Definition bob_store : LocalStorage := mkStorage (Holds [bob]) (Holds []).
Definition t_morning : Z := 1704099600000.
Definition t_evening : Z := 1704128400000.
Definition t_next_day : Z := 1704186000000.
Definition bob_morning : AttendanceRecord := mkRecord "r-1" "u-1" "Bob" t_morning 19723.
Definition bob_next_day : AttendanceRecord := mkRecord "r-3" "u-1" "Bob" t_next_day 19724.
Definition alice : Registration := mkRegistration "Alice" "a@x.com" [1; 0; 0]%Q.
Definition alice_b : Registration := mkRegistration "Alice B" "a@x.com" [1; 0; 1 # 10]%Q.

Definition two_day_store : LocalStorage :=
  mkStorage (Holds [bob]) (Holds [bob_morning; bob_next_day]).

(** A medium whose quota holds one user record and no more. *)
Definition one_user_quota : Medium :=
  mkMedium true (λ w, match w with
                      | WUsers v => (length v <=? 1)%nat
                      | _ => true
                      end).

(** A medium on which every access throws. *)
Definition offline : Medium := mkMedium false (λ _, false).

(** Records newest first. *)
Definition newer_or_same (a b : AttendanceRecord) : Prop := r_timestamp b ≤ r_timestamp a.

End AttendanceService.

(** ** The rest of the face-detection mock *)

Module FaceDetectionMock.
Import Storage FaceRecognitionMock.

Record Box := mkBox {
  box_x : Z;
  box_y : Z;
  box_width : Z;
  box_height : Z
}.

Record Scored := mkScored {
  box : Box;
  score : Q
}.

(** The detection object of [mockFaceDetection]; the [shift] method of
    [landmarks] is a constant function and is left out. *)
Record Detection := mkDetection {
  detection : Scored;
  landmarks_positions : list (Z * Z);
  descriptor : list Q;
  alignedRect : Scored
}.

Definition mockDetection : Detection :=
  mkDetection (mkScored (mkBox 100 100 200 200) (95 # 100))
              (replicate 68 (0, 0))
              (replicate 128 (1 # 2))
              (mkScored (mkBox 100 100 200 200) (95 # 100)).

(** [mockDetectAllFaces().withFaceLandmarks().withFaceDescriptors()] *)
Definition mockDetectAllFaces : list Detection := [mockDetection].

(** [mockDetectSingleFace().withFaceLandmarks().withFaceDescriptor()] *)
Definition mockDetectSingleFace : option Detection := Some mockDetection.

Definition mockResizeResults {A} (results : A) : A := results.

End FaceDetectionMock.

(** ** The components that call the service *)

Module Components.
Import Storage Float64 FaceRecognitionMock AttendanceService FaceDetectionMock.
Local Open Scope js_scope.

(** [!!s] for a string. *)
Definition truthy (s : string) : bool := negb (String.eqb s "").

(** A value computed without localStorage, possibly throwing. *)
Definition lift {A} (o : Outcome A) : Js A := λ s, (o, s).

(** *** [UserRegistration] *)

(** The [useState] cells of the component; [reg_mockApi] tells whether
    [mockApi] has been set. *)
Record RegistrationState := mkRegistrationState {
  reg_name : string;
  reg_email : string;
  reg_isLoading : bool;
  reg_isModelLoading : bool;
  reg_isCaptureMode : bool;
  reg_capturedDescriptor : option (list Q);
  reg_isRegistered : bool;
  reg_error : option string;
  reg_mockApi : bool;
  reg_cameraError : bool
}.

Definition setError (e : option string) (st : RegistrationState) : RegistrationState :=
  mkRegistrationState (reg_name st) (reg_email st) (reg_isLoading st) (reg_isModelLoading st)
    (reg_isCaptureMode st) (reg_capturedDescriptor st) (reg_isRegistered st) e
    (reg_mockApi st) (reg_cameraError st).

Definition setIsCaptureMode (b : bool) (st : RegistrationState) : RegistrationState :=
  mkRegistrationState (reg_name st) (reg_email st) (reg_isLoading st) (reg_isModelLoading st)
    b (reg_capturedDescriptor st) (reg_isRegistered st) (reg_error st)
    (reg_mockApi st) (reg_cameraError st).

Definition setCapturedDescriptor (d : option (list Q)) (st : RegistrationState) :
    RegistrationState :=
  mkRegistrationState (reg_name st) (reg_email st) (reg_isLoading st) (reg_isModelLoading st)
    (reg_isCaptureMode st) d (reg_isRegistered st) (reg_error st)
    (reg_mockApi st) (reg_cameraError st).

Definition setIsRegistered (b : bool) (st : RegistrationState) : RegistrationState :=
  mkRegistrationState (reg_name st) (reg_email st) (reg_isLoading st) (reg_isModelLoading st)
    (reg_isCaptureMode st) (reg_capturedDescriptor st) b (reg_error st)
    (reg_mockApi st) (reg_cameraError st).

(** [new Float32Array(128).fill(0.5)] *)
Definition default_descriptor : list Q := replicate 128 (1 # 2).

(** [handleCaptureFace]; [video] tells whether [videoRef.current] is set.
    Nothing in the [try] block can throw, so its [catch] is not reached. *)
Definition handleCaptureFace (video : bool) (st : RegistrationState) : RegistrationState :=
  if negb video || negb (reg_mockApi st) then st
  else
    let detections := mockDetectSingleFace in
    let descriptor :=
      match detections with
      | Some d => FaceDetectionMock.descriptor d
      | None => default_descriptor
      end in
    setIsCaptureMode false (setCapturedDescriptor (Some descriptor) st).

(** [handleRegister]; the redirection started by [setTimeout] is not part of
    the handler. *)
Definition handleRegister (m : Medium) (uuid uuid_fallback : string) (now now_fallback : Z)
    (st : RegistrationState) : Js RegistrationState :=
  if negb (truthy (reg_name st)) || negb (truthy (reg_email st))
  then ret (setError (Some "Please provide your name and email.") st)
  else
    let descriptor := default default_descriptor (reg_capturedDescriptor st) in
    try_catch
      (registerUser m uuid uuid_fallback now now_fallback
         (mkRegistration (reg_name st) (reg_email st) descriptor) >>
       ret (setIsRegistered true st))
      (λ _, ret (setError (Some "Failed to register. Please try again.") st)).

Definition startCapture (st : RegistrationState) : RegistrationState :=
  if negb (truthy (reg_name st)) || negb (truthy (reg_email st))
  then setError (Some "Please enter your name and email before capturing your face.") st
  else setIsCaptureMode true (setError None st).

Definition skipCamera (st : RegistrationState) : RegistrationState :=
  setIsCaptureMode false (setCapturedDescriptor (Some default_descriptor) st).

(** *** [AttendanceMarking] *)

Record RecognizedUser := mkRecognized {
  rec_id : string;
  rec_name : string
}.

Record MarkingState := mkMarkingState {
  am_isLoading : bool;
  am_isModelLoading : bool;
  am_recognizedUser : option RecognizedUser;
  am_error : option string;
  am_attendanceMarked : bool;
  am_alreadyMarkedToday : bool;
  am_mockApi : bool;
  am_processingAttendance : bool;
  am_currentUserId : option string
}.

Definition setRecognizedUser (u : option RecognizedUser) (st : MarkingState) : MarkingState :=
  mkMarkingState (am_isLoading st) (am_isModelLoading st) u (am_error st)
    (am_attendanceMarked st) (am_alreadyMarkedToday st) (am_mockApi st)
    (am_processingAttendance st) (am_currentUserId st).

Definition setMarkingError (e : option string) (st : MarkingState) : MarkingState :=
  mkMarkingState (am_isLoading st) (am_isModelLoading st) (am_recognizedUser st) e
    (am_attendanceMarked st) (am_alreadyMarkedToday st) (am_mockApi st)
    (am_processingAttendance st) (am_currentUserId st).

Definition setAttendanceMarked (b : bool) (st : MarkingState) : MarkingState :=
  mkMarkingState (am_isLoading st) (am_isModelLoading st) (am_recognizedUser st) (am_error st)
    b (am_alreadyMarkedToday st) (am_mockApi st)
    (am_processingAttendance st) (am_currentUserId st).

Definition setAlreadyMarkedToday (b : bool) (st : MarkingState) : MarkingState :=
  mkMarkingState (am_isLoading st) (am_isModelLoading st) (am_recognizedUser st) (am_error st)
    (am_attendanceMarked st) b (am_mockApi st)
    (am_processingAttendance st) (am_currentUserId st).

Definition setProcessingAttendance (b : bool) (st : MarkingState) : MarkingState :=
  mkMarkingState (am_isLoading st) (am_isModelLoading st) (am_recognizedUser st) (am_error st)
    (am_attendanceMarked st) (am_alreadyMarkedToday st) (am_mockApi st)
    b (am_currentUserId st).

Definition setCurrentUserId (i : option string) (st : MarkingState) : MarkingState :=
  mkMarkingState (am_isLoading st) (am_isModelLoading st) (am_recognizedUser st) (am_error st)
    (am_attendanceMarked st) (am_alreadyMarkedToday st) (am_mockApi st)
    (am_processingAttendance st) i.

(** The effect "reset states when user changes": [now] is the clock read by
    [checkAttendanceStatus]; a rejection of its promise is only logged. *)
Definition onRecognizedUserChange (m : Medium) (now : Z) (st : MarkingState) : Js MarkingState :=
  match am_recognizedUser st with
  | Some u =>
      if bool_decide (Some (rec_id u) ≠ am_currentUserId st) then
        let st' :=
          setAlreadyMarkedToday false
            (setAttendanceMarked false (setCurrentUserId (Some (rec_id u)) st)) in
        try_catch
          (let* status := checkAttendanceStatus m now (rec_id u) in
           ret (setAlreadyMarkedToday (markedToday status) st'))
          (λ _, ret st')
      else ret st
  | None => ret st
  end.

(** The loop of [recognizeFaces] over the detections: [random k] is the value
    of [Math.random()] read for the [k]-th detection, [now] the clock read by
    [checkAttendanceStatus].  The loop ends at the first detection that is
    matched to a candidate with a non-empty name. *)
Fixpoint recognize_loop (m : Medium) (random : nat → Double) (now : Z)
    (labeledFaceDescriptors : list MockLabeledFaceDescriptors)
    (detections : list Detection) (k : nat) (st : MarkingState) : Js MarkingState :=
  match detections with
  | [] => ret st
  | d :: rest =>
      let* result :=
        lift (mockFindBestMatch (random k) (descriptor d) (Some labeledFaceDescriptors)) in
      if bool_decide (label result ≠ "unknown") then
        let userId := label result in
        match list_find (λ desc, lfd_label desc = userId) labeledFaceDescriptors with
        | Some (_, user) =>
            if truthy (lfd_name user) then
              match am_recognizedUser st with
              | Some u =>
                  if bool_decide (rec_id u ≠ userId) then
                    let st' := setRecognizedUser (Some (mkRecognized userId (lfd_name user))) st in
                    let* status := checkAttendanceStatus m now userId in
                    ret (setAlreadyMarkedToday (markedToday status) st')
                  else ret st
              | None =>
                  let st' := setRecognizedUser (Some (mkRecognized userId (lfd_name user))) st in
                  let* status := checkAttendanceStatus m now userId in
                  ret (setAlreadyMarkedToday (markedToday status) st')
              end
            else recognize_loop m random now labeledFaceDescriptors rest (S k) st
        | None => recognize_loop m random now labeledFaceDescriptors rest (S k) st
        end
      else recognize_loop m random now labeledFaceDescriptors rest (S k) st
  end.

(** [recognizeFaces]: [video], [canvas] tell whether the two refs are set,
    [ctx] whether the canvas gives a 2d context.  Drawing on the canvas
    changes nothing that is modelled. *)
Definition recognizeFaces (fround : Q → Q) (m : Medium) (random : nat → Double) (now : Z)
    (video canvas ctx : bool) (st : MarkingState) : Js MarkingState :=
  if negb video || negb canvas then ret st
  else
    let* labeledFaceDescriptors := getUsersData fround m in
    if (length labeledFaceDescriptors =? 0)%nat then ret st
    else
      let detections := mockDetectAllFaces in
      let resizedDetections := mockResizeResults detections in
      if ctx then
        if (0 <? length resizedDetections)%nat
        then recognize_loop m random now labeledFaceDescriptors resizedDetections 0 st
        else ret st
      else ret st.

(** [handleMarkAttendance]: [now] is the clock read by
    [checkAttendanceStatus]; [uuid], [now_today], [now_stamp] are read by
    [markAttendance].  The reset started by [setTimeout] is [handleReset]. *)
Definition handleMarkAttendance (m : Medium) (uuid : string) (now now_today now_stamp : Z)
    (st : MarkingState) : Js MarkingState :=
  match am_recognizedUser st with
  | None => ret st
  | Some u =>
      let st1 := setProcessingAttendance true st in
      try_catch
        (let* status := checkAttendanceStatus m now (rec_id u) in
         if markedToday status then
           ret (setAttendanceMarked true (setAlreadyMarkedToday true st1))
         else
           markAttendance m uuid now_today now_stamp (rec_id u) >>
           ret (setAlreadyMarkedToday false (setAttendanceMarked true st1)))
        (λ _, ret (setProcessingAttendance false
                     (setMarkingError (Some "Failed to mark attendance. Please try again.") st1)))
  end.

Definition handleReset (st : MarkingState) : MarkingState :=
  setProcessingAttendance false
    (setAlreadyMarkedToday false
       (setAttendanceMarked false
          (setCurrentUserId None (setRecognizedUser None st)))).

(** *** [AdminDashboard] *)

(** [s.includes(t)] *)
Fixpoint includes (s t : string) : bool :=
  String.prefix t s ||
  match s with
  | EmptyString => false
  | String _ s' => includes s' t
  end.

(** The effect that filters the attendance records: [toLowerCase] is
    [String.prototype.toLowerCase]; [dateFilter = None] is the empty value of
    the date input. *)
Definition filterRecords (toLowerCase : string → string) (searchTerm : string)
    (dateFilter : option Z) (attendanceRecords : list AttendanceRecord) :
    list AttendanceRecord :=
  let filtered := attendanceRecords in
  let filtered :=
    if truthy searchTerm then
      let term := toLowerCase searchTerm in
      filter (λ record, includes (toLowerCase (r_userName record)) term = true) filtered
    else filtered in
  let filtered :=
    match dateFilter with
    | Some d => filter (λ record, r_date record = d) filtered
    | None => filtered
    end in
  filtered.

Record DashboardState := mkDashboardState {
  db_users : list UserSummary;
  db_attendanceRecords : list AttendanceRecord;
  db_filteredRecords : list AttendanceRecord;
  db_isLoading : bool;
  db_error : option string;
  db_searchTerm : string;
  db_dateFilter : option Z
}.

(** [fetchData]: both service calls are started before [Promise.all] waits
    for them, so the second one runs even when the first one throws; either
    failure ends in the [catch] block. *)
Definition fetchData (m : Medium) (st : DashboardState) : Js DashboardState :=
  λ s,
    let (usersData, s1) := getAllUsers m s in
    let (recordsData, s2) := getAttendanceRecords m s1 in
    match usersData, recordsData with
    | Returned us, Returned rs =>
        (Returned (mkDashboardState us rs rs false (db_error st)
                     (db_searchTerm st) (db_dateFilter st)), s2)
    | _, _ =>
        (Returned (mkDashboardState (db_users st) (db_attendanceRecords st)
                     (db_filteredRecords st) false
                     (Some "Failed to load dashboard data. Please try again.")
                     (db_searchTerm st) (db_dateFilter st)), s2)
    end.

(** The filtering effect, run after [searchTerm], [dateFilter] or
    [attendanceRecords] changed. *)
Definition applyFilters (toLowerCase : string → string) (st : DashboardState) : DashboardState :=
  mkDashboardState (db_users st) (db_attendanceRecords st)
    (filterRecords toLowerCase (db_searchTerm st) (db_dateFilter st) (db_attendanceRecords st))
    (db_isLoading st) (db_error st) (db_searchTerm st) (db_dateFilter st).

(** The text built by [handleExportCSV]: [date_text] gives the text of a
    date, [toLocaleTimeString] the local time of day of a timestamp.  The
    download of the text is not modelled. *)
Definition line_break : Ascii.ascii := Ascii.ascii_of_nat 10.
Definition comma : Ascii.ascii := Ascii.ascii_of_nat 44.
Definition newline : string := String line_break EmptyString.

Definition csvContent (date_text toLocaleTimeString : Z → string)
    (filteredRecords : list AttendanceRecord) : string :=
  let headers := ["Name"; "Date"; "Time"] in
  let rows :=
    (λ record, [r_userName record; date_text (r_date record);
                toLocaleTimeString (r_timestamp record)]) <$> filteredRecords in
  String.concat newline (String.concat "," headers :: (String.concat "," <$> rows)).

(** How often a character occurs in a text. *)
Fixpoint occurrences (c : Ascii.ascii) (s : string) : nat :=
  match s with
  | EmptyString => 0
  | String c' s' => (if Ascii.eqb c c' then 1 else 0) + occurrences c s'
  end.

End Components.

(** ** Properties of binary64 rounding *)

Module Float64Properties.
Import Float64.
Local Open Scope Q_scope.

Lemma round_half_even_upper (x : Q) : inject_Z (round_half_even x) <= x + (1 # 2).
Proof.
  unfold round_half_even.
  pose proof (Qfloor_le x) as Hf.
  destruct (Qcompare_spec (x - inject_Z (Qfloor x)) (1 # 2)) as [He | Hl | Hg].
  - destruct (Z.even (Qfloor x)); [lra |]. rewrite inject_Z_plus. change (inject_Z 1) with 1. lra.
  - lra.
  - rewrite inject_Z_plus. change (inject_Z 1) with 1. lra.
Qed.

Lemma round_half_even_nonneg (x : Q) : 0 <= x → 0 <= inject_Z (round_half_even x).
Proof.
  intros Hx. assert (Hf : (0 <= Qfloor x)%Z).
  { change 0%Z with (Qfloor 0). by apply Qfloor_resp_le. }
  change 0 with (inject_Z 0). rewrite <- Zle_Qle. unfold round_half_even.
  destruct (_ ?= _); [destruct (Z.even _) | |]; lia.
Qed.

Lemma two_power_pos (e : Z) : 0 < 2 ^ e.
Proof. by apply Qpower_0_lt. Qed.

(** [leading_exponent x] is the binary exponent of [x]. *)
Lemma leading_exponent_le (x : Q) : 0 < x → 2 ^ leading_exponent x <= x.
Proof.
  intros Hx. unfold leading_exponent.
  destruct (Qle_bool _ x) eqn:Htest; [by apply Qle_bool_iff |].
  destruct x as [p q]. cbn [Qnum Qden].
  assert (Hp : (0 < p)%Z) by (unfold Qlt in Hx; simpl in Hx; lia).
  pose proof (Z.log2_spec p Hp) as [Hlo _].
  pose proof (Z.log2_spec (Z.pos q) (Pos2Z.is_pos q)) as [_ Hhi].
  pose proof (Z.log2_nonneg p) as Ha.
  pose proof (Z.log2_nonneg (Z.pos q)) as Hb.
  replace (Z.log2 p - Z.log2 (Z.pos q) - 1)%Z
    with (Z.log2 p - Z.succ (Z.log2 (Z.pos q)))%Z by lia.
  rewrite Qpower_minus by done.
  change 2 with (inject_Z 2). rewrite <- !Zpower_Qpower by lia.
  set (A := (2 ^ Z.log2 p)%Z) in *.
  set (B := (2 ^ Z.succ (Z.log2 (Z.pos q)))%Z) in *.
  apply Qle_shift_div_r.
  - change 0 with (inject_Z 0). rewrite <- Zlt_Qlt. lia.
  - unfold Qle. cbn [Qnum Qden Qmult inject_Z]. rewrite Pos.mul_1_r. nia.
Qed.

(** A product that stays below [n * (1 - 2 ^ -53)] rounds to less than [n]. *)
Lemma round_positive_below (x n : Q) :
  0 < x → 1 <= n → x <= n * below_one → round_positive x < n.
Proof.
  intros Hx Hn Hxn. unfold round_positive, below_one in *.
  set (e := leading_exponent x).
  pose proof (leading_exponent_le x Hx) as He. fold e in He.
  set (u := 2 ^ (Z.max e (-1022) - 52)).
  assert (Hu : 0 < u) by apply two_power_pos.
  pose proof (round_half_even_upper (x / u)) as Hr.
  assert (Hxu : x / u * u == x) by (field; lra).
  assert (Hbound : inject_Z (round_half_even (x / u)) * u <= x + u * (1 # 2)).
  { rewrite <- Hxu at 2. nra. }
  assert (Hsmall : u * (1 # 2) <= x * (1 # 9007199254740992) ∨
                   u * (1 # 2) < 1 # 9007199254740992).
  { destruct (Z.max_spec e (-1022)) as [[Hlt Hmax] | [Hge Hmax]].
    - right. subst u. rewrite Hmax. vm_compute. reflexivity.
    - left. subst u. rewrite Hmax.
      replace (e - 52)%Z with (e + -52)%Z by lia.
      rewrite Qpower_plus by done.
      change (2 ^ (-52)) with (1 # 4503599627370496).
      pose proof (two_power_pos e). nra. }
  destruct Hsmall as [Hs | Hs]; nra.
Qed.

Lemma round_positive_nonneg (x : Q) : 0 < x → 0 <= round_positive x.
Proof.
  intros Hx. unfold round_positive.
  set (u := 2 ^ (Z.max (leading_exponent x) (-1022) - 52)).
  assert (Hu : 0 < u) by apply two_power_pos.
  apply Qmult_le_0_compat; [| lra].
  apply round_half_even_nonneg. apply Qle_shift_div_l; lra.
Qed.

(** A double below 1 is at most the greatest double below 1. *)
Lemma value_below_one (a : Double) : value a < 1 → value a <= below_one.
Proof.
  destruct a as [m e Hok]. unfold value, below_one. cbn [mantissa exponent]. intros Hlt.
  apply andb_true_iff in Hok as [Hok _]. apply andb_true_iff in Hok as [Hm _].
  apply Z.ltb_lt in Hm.
  pose proof (two_power_pos e) as Hpos.
  destruct (Z.le_gt_cases m 0) as [Hm0 | Hm0].
  { assert (inject_Z m <= 0) by (change 0 with (inject_Z 0); by rewrite <- Zle_Qle). nra. }
  assert (Hm1 : 1 <= inject_Z m) by (change 1 with (inject_Z 1); rewrite <- Zle_Qle; lia).
  destruct (Z.le_gt_cases 0 e) as [He | He].
  { assert (1 <= 2 ^ e) by (by apply Qpower_1_le). nra. }
  set (K := (2 ^ (- e))%Z).
  assert (HK : (0 < K)%Z) by (apply Z.pow_pos_nonneg; lia).
  assert (Hpow : 2 ^ e == / inject_Z K).
  { replace e with (- - e)%Z at 1 by lia. rewrite Qpower_opp.
    subst K. rewrite Zpower_Qpower by lia. reflexivity. }
  assert (HKq : 0 < inject_Z K) by (change 0 with (inject_Z 0); by rewrite <- Zlt_Qlt).
  rewrite Hpow in Hlt |- *.
  assert (Hinv : / inject_Z K * inject_Z K == 1) by (field; lra).
  assert (HmK : (m < K)%Z).
  { rewrite Zlt_Qlt. set (z := / inject_Z K) in *. nra. }
  apply Qle_shift_div_r; [done |].
  assert (Habs : Z.abs m = m) by lia. rewrite Habs in Hm.
  unfold Qle. cbn [Qnum Qden Qmult Qminus Qplus Qopp inject_Z].
  destruct (Z.le_gt_cases K (2 ^ 53)); nia.
Qed.

Lemma to_double_range (r n : Q) :
  0 <= r → r <= below_one → 1 <= n → 0 <= to_double (r * n) ∧ to_double (r * n) < n.
Proof.
  intros Hr Hb Hn. unfold to_double.
  assert (Hx : 0 <= r * n) by nra.
  destruct (Qcompare_spec (r * n) 0) as [Heq | Hlt | Hgt].
  - lra.
  - lra.
  - split; [by apply round_positive_nonneg |].
    apply round_positive_below; [done | done |]. unfold below_one in *. nra.
Qed.

(** [Math.floor(Math.random() * n)] is an index of an array of length [n]:
    the rounded product never reaches [n]. *)
Lemma times_in_range (a : Double) (n : nat) :
  0 <= value a → value a < 1 → (0 < n)%nat →
  (0 ≤ Qfloor (times a n) < Z.of_nat n)%Z.
Proof.
  intros Hlo Hhi Hn. unfold times.
  assert (H1 : 1 <= inject_Z (Z.of_nat n)).
  { change 1 with (inject_Z 1). rewrite <- Zle_Qle. lia. }
  destruct (to_double_range (value a) (inject_Z (Z.of_nat n)) Hlo (value_below_one a Hhi) H1)
    as [H0 Hn'].
  split.
  - change 0%Z with (Qfloor 0). by apply Qfloor_resp_le.
  - rewrite Zlt_Qlt. eapply Qle_lt_trans; [apply Qfloor_le | done].
Qed.

Lemma leading_exponent_lt (x : Q) : 0 < x → x < 2 ^ (leading_exponent x + 1).
Proof.
  intros Hx. unfold leading_exponent.
  destruct (Qle_bool _ x) eqn:Htest.
  - destruct x as [p q]. cbn [Qnum Qden].
    assert (Hp : (0 < p)%Z) by (unfold Qlt in Hx; simpl in Hx; lia).
    pose proof (Z.log2_spec p Hp) as [_ Hhi].
    pose proof (Z.log2_spec (Z.pos q) (Pos2Z.is_pos q)) as [Hlo _].
    pose proof (Z.log2_nonneg p) as Ha.
    pose proof (Z.log2_nonneg (Z.pos q)) as Hb.
    replace (Z.log2 p - Z.log2 (Z.pos q) + 1)%Z
      with (Z.succ (Z.log2 p) - Z.log2 (Z.pos q))%Z by lia.
    rewrite Qpower_minus by done.
    change 2 with (inject_Z 2). rewrite <- !Zpower_Qpower by lia.
    set (A := (2 ^ Z.succ (Z.log2 p))%Z) in *.
    set (B := (2 ^ Z.log2 (Z.pos q))%Z) in *.
    apply Qlt_shift_div_l.
    + change 0 with (inject_Z 0). rewrite <- Zlt_Qlt. lia.
    + unfold Qlt. cbn [Qnum Qden Qmult inject_Z]. rewrite Pos.mul_1_r. nia.
  - replace (Z.log2 (Qnum x) - Z.log2 (Z.pos (Qden x)) - 1 + 1)%Z
      with (Z.log2 (Qnum x) - Z.log2 (Z.pos (Qden x)))%Z by lia.
    apply Qnot_le_lt. intros Hle. apply Qle_bool_iff in Hle. congruence.
Qed.

Lemma round_half_even_lower (x : Q) : x - (1 # 2) <= inject_Z (round_half_even x).
Proof.
  unfold round_half_even.
  pose proof (Qlt_floor x) as Hf. rewrite inject_Z_plus in Hf. change (inject_Z 1) with 1 in Hf.
  destruct (Qcompare_spec (x - inject_Z (Qfloor x)) (1 # 2)) as [He | Hl | Hg].
  - destruct (Z.even (Qfloor x)); [lra |]. rewrite inject_Z_plus. change (inject_Z 1) with 1. lra.
  - lra.
  - rewrite inject_Z_plus. change (inject_Z 1) with 1. lra.
Qed.

Lemma round_half_even_integer (z : Z) : round_half_even (inject_Z z) = z.
Proof.
  unfold round_half_even. rewrite Qfloor_Z.
  destruct (Qcompare_spec (inject_Z z - inject_Z z) (1 # 2)) as [He | Hl | Hg]; [lra | done | lra].
Qed.

Lemma round_half_even_comp (x y : Q) : x == y → round_half_even x = round_half_even y.
Proof.
  intros Hxy. unfold round_half_even.
  assert (Hf : Qfloor x = Qfloor y) by (by rewrite Hxy).
  rewrite Hf.
  assert (Hc : (x - inject_Z (Qfloor y) ?= 1 # 2) = (y - inject_Z (Qfloor y) ?= 1 # 2)).
  { by rewrite Hxy. }
  by rewrite Hc.
Qed.

(** The rounded value is within half a unit of the last place. *)
Lemma round_positive_near (x : Q) :
  0 < x →
  let u := 2 ^ (Z.max (leading_exponent x) (-1022) - 52) in
  x - u * (1 # 2) <= round_positive x ∧ round_positive x <= x + u * (1 # 2).
Proof.
  intros Hx u. unfold round_positive. fold u.
  assert (Hu : 0 < u) by apply two_power_pos.
  pose proof (round_half_even_upper (x / u)) as Hhi.
  pose proof (round_half_even_lower (x / u)) as Hlo.
  assert (Hxu : x / u * u == x) by (field; lra).
  split; [rewrite <- Hxu at 1 | rewrite <- Hxu at 2]; nra.
Qed.

(** A double is its own rounding. *)
Lemma round_positive_multiple (x : Q) (k : Z) :
  0 < x → x == inject_Z k * 2 ^ (Z.max (leading_exponent x) (-1022) - 52) →
  round_positive x == x.
Proof.
  intros Hx Hk. unfold round_positive.
  set (u := 2 ^ (Z.max (leading_exponent x) (-1022) - 52)) in *.
  assert (Hu : 0 < u) by apply two_power_pos.
  assert (Hdiv : x / u == inject_Z k) by (rewrite Hk; field; lra).
  assert (Hrhe : round_half_even (x / u) = k).
  { rewrite <- (round_half_even_integer k). by apply round_half_even_comp. }
  rewrite Hrhe. by rewrite Hk.
Qed.

(** The rounding is visible: [0.6666666666666666 * 3] is the double [2], so
    its floor is 2, where the floor of the exact product is 1; [0.5 * 2] is
    exactly 1. *)
Lemma times_rounds :
  times two_thirds 3 == 2 ∧ Qfloor (times two_thirds 3) = 2%Z ∧
  Qfloor (value two_thirds * 3) = 1%Z ∧ times one_half 2 == 1 ∧ times zero 2 == 0.
Proof. by vm_compute. Qed.

End Float64Properties.

(** ** Properties of the matcher *)

Module MatcherProperties.
Import Storage Float64 FaceRecognitionMock.

Lemma mockFindBestMatch_selects (random : Double) (descriptor : list Q)
    (cands : list MockLabeledFaceDescriptors) :
  cands ≠ [] → (0 <= value random)%Q → (value random < 1)%Q →
  ∃ c, cands !! Z.to_nat (Qfloor (times random (length cands))) = Some c ∧
       mockFindBestMatch random descriptor (Some cands) = Returned (mkMatch (lfd_label c) (3 # 10)).
Proof.
  intros Hne Hlo Hhi.
  assert (Hlen : (0 < length cands)%nat) by (destruct cands; [done | simpl; lia]).
  destruct (Float64Properties.times_in_range random (length cands) Hlo Hhi Hlen) as [Hi0 Hi1].
  destruct (lookup_lt_is_Some_2 cands
              (Z.to_nat (Qfloor (times random (length cands))))) as [c Hc];
    [lia |].
  exists c. split; [done |].
  unfold mockFindBestMatch, array_get.
  destruct (Nat.ltb_spec 0 (length cands)) as [_ | ?]; [| lia].
  destruct (Z.ltb_spec (Qfloor (times random (length cands))) 0) as [? | _];
    [lia |].
  by rewrite Hc.
Qed.

Lemma findBestMatch_first (threshold : option Q) (descriptor : list Q)
    (c : MockLabeledFaceDescriptors) (rest : list MockLabeledFaceDescriptors) :
  findBestMatch (new_MockFaceMatcher (c :: rest) threshold) descriptor
  = Returned (mkMatch (lfd_label c) (3 # 10)).
Proof. reflexivity. Qed.

(** C8: on the empty candidate set both matchers return the sentinel label
    ["unknown"] with distance exactly 1.0, whatever the query embedding (and
    whatever [Math.random()] and the threshold are); neither throws. *)
Theorem empty_candidates_unknown (random : Double) (descriptor : list Q) (threshold : option Q) :
  mockFindBestMatch random descriptor (Some []) = Returned (mkMatch "unknown" 1) ∧
  findBestMatch (new_MockFaceMatcher [] threshold) descriptor = Returned (mkMatch "unknown" 1).
Proof. split; reflexivity. Qed.

(** C10: for a non-empty candidate list both matchers return distance exactly
    0.3 and the label of one of the candidates; the result does not change
    when the query embedding and the candidates' embeddings are replaced by
    any others (same labels, same draw of [Math.random()]). *)
Theorem match_distance_is_constant (random : Double) (descriptor : list Q)
    (cands : list MockLabeledFaceDescriptors) (threshold : option Q) :
  cands ≠ [] → (0 <= value random)%Q → (value random < 1)%Q →
  (∃ c, c ∈ cands ∧
        mockFindBestMatch random descriptor (Some cands)
        = Returned (mkMatch (lfd_label c) (3 # 10))) ∧
  (∃ c, c ∈ cands ∧
        findBestMatch (new_MockFaceMatcher cands threshold) descriptor
        = Returned (mkMatch (lfd_label c) (3 # 10))) ∧
  (∀ descriptor' cands',
      lfd_label <$> cands' = lfd_label <$> cands →
      mockFindBestMatch random descriptor' (Some cands')
      = mockFindBestMatch random descriptor (Some cands) ∧
      findBestMatch (new_MockFaceMatcher cands' threshold) descriptor'
      = findBestMatch (new_MockFaceMatcher cands threshold) descriptor).
Proof.
  intros Hne Hlo Hhi. split_and!.
  - destruct (mockFindBestMatch_selects random descriptor cands Hne Hlo Hhi) as (c & Hc & Hr).
    exists c. split; [by eapply list_elem_of_lookup_2 | done].
  - destruct cands as [| c rest]; [done |].
    exists c. split; [left | apply findBestMatch_first].
  - intros descriptor' cands' Hlabels.
    assert (Hlen : length cands' = length cands).
    { by rewrite <- (length_fmap lfd_label cands'), Hlabels, length_fmap. }
    assert (Hne' : cands' ≠ []) by (destruct cands', cands; done).
    split.
    + destruct (mockFindBestMatch_selects random descriptor cands Hne Hlo Hhi) as (c & Hc & ->).
      destruct (mockFindBestMatch_selects random descriptor' cands' Hne' Hlo Hhi)
        as (c' & Hc' & ->).
      rewrite Hlen in Hc'.
      assert (Heq : Some (lfd_label c') = Some (lfd_label c)).
      { rewrite <- (fmap_Some_2 lfd_label _ _ Hc'), <- (fmap_Some_2 lfd_label _ _ Hc).
        by rewrite <- !list_lookup_fmap, Hlabels. }
      by injection Heq as ->.
    + destruct cands as [| c rest], cands' as [| c' rest']; try done.
      rewrite !findBestMatch_first. by injection Hlabels as -> _.
Qed.

Lemma match_distance_is_constant_witness :
  (∃ c, c ∈ labeled <$> scenario_candidates ∧
        mockFindBestMatch one_half scenario_query (Some (labeled <$> scenario_candidates))
        = Returned (mkMatch (lfd_label c) (3 # 10))).
Proof.
  apply (match_distance_is_constant one_half scenario_query (labeled <$> scenario_candidates) None);
    [done | done | reflexivity].
Defined.




(** C4, evaluated on the code: two calls of [mockFindBestMatch] with the same
    query and the same two candidates return different labels when
    [Math.random()] draws 0 and then 0.5; both candidates are reported at the
    same distance 0.3, and the second call does not return the first one. *)
Theorem mockFindBestMatch_draw_dependent :
  mockFindBestMatch zero scenario_query (Some (labeled <$> scenario_candidates))
  = Returned (mkMatch "u1" (3 # 10)) ∧
  mockFindBestMatch one_half scenario_query (Some (labeled <$> scenario_candidates))
  = Returned (mkMatch "u2" (3 # 10)).
Proof. split; reflexivity. Qed.

End MatcherProperties.

(** ** Properties of the attendance service *)

Module ServiceProperties.
Import Storage FaceRecognitionMock AttendanceService.
Local Open Scope js_scope.

(** *** [initializeStorage] *)

Lemma initializeStorage_kept (m : Medium) (s : LocalStorage) :
  ∃ s0, initializeStorage m s = (Returned tt, s0) ∧
        item_kept (users_item s) (users_item s0) ∧
        item_kept (attendance_item s) (attendance_item s0).
Proof.
  destruct m as [on acc], s as [us rs].
  unfold initializeStorage, try_catch, bind, probe, getItem_users, getItem_attendance,
    setItem_users, setItem_attendance, item_kept; simpl.
  destruct on; simpl; [| eauto 10].
  destruct (acc WProbe); simpl; [| eauto 10].
  destruct us, rs; simpl;
    destruct (acc (WUsers [])), (acc (WAttendance [])); simpl; eauto 10.
Qed.

Lemma initializeStorage_works (m : Medium) (s : LocalStorage) :
  works m → initializeStorage m s = (Returned tt, initialized s).
Proof.
  intros [Hon Hacc]. destruct m as [on acc], s as [us rs]. simpl in *. subst on.
  unfold initializeStorage, try_catch, bind, probe, getItem_users, getItem_attendance,
    setItem_users, setItem_attendance, initialized, identities, events; simpl.
  rewrite !Hacc. destruct us, rs; simpl; rewrite ?Hacc; reflexivity.
Qed.

Lemma initializeStorage_settled (m : Medium) (us : list UserData) (rs : list AttendanceRecord) :
  initializeStorage m (mkStorage (Holds us) (Holds rs)) = (Returned tt, mkStorage (Holds us) (Holds rs)).
Proof.
  destruct m as [on acc].
  unfold initializeStorage, try_catch, bind, probe, getItem_users, getItem_attendance; simpl.
  destruct on; simpl; [| done]. destruct (acc WProbe); reflexivity.
Qed.

Lemma item_kept_list {A} (before after : Slot (list A)) :
  item_kept before after → slot_list after = slot_list before.
Proof. intros [-> | [-> [-> | ->]]]; reflexivity. Qed.

Lemma initializeStorage_readable (m : Medium) (s : LocalStorage) :
  readable m s →
  ∃ s0, initializeStorage m s = (Returned tt, s0) ∧
        identities s0 = identities s ∧ events s0 = events s ∧
        users_item s0 ≠ Garbled ∧ attendance_item s0 ≠ Garbled.
Proof.
  intros [Hon [Hacc | [Hu Hr]]].
  - exists (initialized s). rewrite initializeStorage_works by done. done.
  - destruct (initializeStorage_kept m s) as (s0 & Hs0 & Ku & Kr).
    exists s0. split; [done |].
    unfold identities, events. rewrite (item_kept_list _ _ Ku), (item_kept_list _ _ Kr).
    split_and!; [done | done | |].
    + destruct Ku as [-> | [-> _]]; done.
    + destruct Kr as [-> | [-> _]]; done.
Qed.

(** *** Reading a key *)

Lemma read_users {B} (m : Medium) (k : list UserData → Js B) (s : LocalStorage) :
  online m = true → users_item s ≠ Garbled →
  bind (getItem_users m) (λ item, bind (JSON_parse item) k) s = k (identities s) s.
Proof.
  intros Hon Hu. unfold bind at 1, getItem_users. rewrite Hon.
  unfold identities. destruct (users_item s); done.
Qed.

Lemma read_attendance {B} (m : Medium) (k : list AttendanceRecord → Js B) (s : LocalStorage) :
  online m = true → attendance_item s ≠ Garbled →
  bind (getItem_attendance m) (λ item, bind (JSON_parse item) k) s = k (events s) s.
Proof.
  intros Hon Hr. unfold bind at 1, getItem_attendance. rewrite Hon.
  unfold events. destruct (attendance_item s); done.
Qed.

(** *** [Array.prototype.sort] with [newest_first] *)

Lemma sort_insert_perm {A} (compareFn : A → A → Z) (x : A) (l : list A) :
  sort_insert compareFn x l ≡ₚ x :: l.
Proof.
  induction l as [| y l IH]; simpl; [done |].
  destruct (compareFn x y <=? 0); [done |].
  rewrite IH. apply Permutation_swap.
Qed.

Lemma Array_sort_perm {A} (compareFn : A → A → Z) (l : list A) :
  Array_sort compareFn l ≡ₚ l.
Proof.
  induction l as [| x l IH]; simpl; [done |].
  by rewrite sort_insert_perm, IH.
Qed.

Lemma sort_insert_newest_first (x : AttendanceRecord) (l : list AttendanceRecord) :
  StronglySorted newer_or_same l → StronglySorted newer_or_same (sort_insert newest_first x l).
Proof.
  induction 1 as [| y l Hl IH Hy]; simpl.
  - repeat constructor.
  - unfold newest_first at 1. destruct (Z.leb_spec (r_timestamp y - r_timestamp x) 0) as [Hle | Hgt].
    + constructor; [by constructor |].
      constructor; [unfold newer_or_same; lia |].
      eapply Forall_impl; [exact Hy |]. unfold newer_or_same. intros z ?. lia.
    + constructor; [done |].
      rewrite sort_insert_perm. constructor; [unfold newer_or_same; lia | done].
Qed.

Lemma Array_sort_newest_first (l : list AttendanceRecord) :
  StronglySorted newer_or_same (Array_sort newest_first l).
Proof.
  induction l as [| x l IH]; simpl; [constructor |].
  by apply sort_insert_newest_first.
Qed.

(** The first element of the sorted array is a newest record. *)
Lemma Array_sort_head (l : list AttendanceRecord) :
  match Array_sort newest_first l !! 0%nat with
  | Some r => r ∈ l ∧ ∀ r', r' ∈ l → r_timestamp r' ≤ r_timestamp r
  | None => l = []
  end.
Proof.
  pose proof (Array_sort_perm newest_first l) as Hp.
  pose proof (Array_sort_newest_first l) as Hs.
  destruct (Array_sort newest_first l) as [| r rest]; simpl.
  - by apply Permutation_nil.
  - split; [rewrite <- Hp; left |].
    intros r' Hr'. rewrite <- Hp in Hr'.
    apply StronglySorted_inv in Hs as [_ Hall].
    apply elem_of_cons in Hr' as [-> | Hr']; [lia |].
    by apply (proj1 (Forall_forall _ _) Hall r').
Qed.

(** *** The reading operations *)

Lemma getAttendanceRecords_readable (m : Medium) (s : LocalStorage) :
  readable m s →
  ∃ s0, getAttendanceRecords m s = (Returned (Array_sort newest_first (events s)), s0) ∧
        events s0 = events s.
Proof.
  intros Hr. pose proof Hr as [Hon _].
  destruct (initializeStorage_readable m s Hr) as (s0 & Hs0 & _ & He & _ & Hg).
  exists s0. split; [| done].
  unfold getAttendanceRecords. unfold bind at 1. rewrite Hs0.
  rewrite read_attendance by done. by rewrite He.
Qed.

Lemma checkAttendanceStatus_readable (m : Medium) (now : Z) (userId : string) (s : LocalStorage) :
  readable m s →
  ∃ s0, checkAttendanceStatus m now userId s
        = (Returned
             (mkStatus
                (bool_decide (is_Some (list_find (λ record, marked_on userId (date_of now) record = true)
                                                 (events s))))
                (r_timestamp <$>
                   Array_sort newest_first (filter (λ record, r_userId record = userId) (events s))
                   !! 0%nat)),
           s0) ∧
        events s0 = events s.
Proof.
  intros Hr. pose proof Hr as [Hon _].
  destruct (initializeStorage_readable m s Hr) as (s0 & Hs0 & _ & He & _ & Hg).
  exists s0. split; [| done].
  unfold checkAttendanceStatus. unfold bind at 1. rewrite Hs0.
  rewrite read_attendance by done. rewrite He. unfold ret. do 3 f_equal.
  destruct (filter _ (events s)) as [| r rest] eqn:Hf; [done |].
  replace (0 <? length (r :: rest))%nat with true by (symmetry; apply Nat.ltb_lt; simpl; lia).
  by destruct (Array_sort newest_first (r :: rest) !! 0%nat).
Qed.

Lemma marked_on_spec (userId : string) (today : Z) (record : AttendanceRecord) :
  marked_on userId today record = true ↔ r_userId record = userId ∧ r_date record = today.
Proof.
  unfold marked_on. rewrite andb_true_iff, !bool_decide_eq_true. done.
Qed.

(** *** Invariant reasoning: rules for [keeps] *)

Section keeps_rules.
Context (I : LocalStorage → Prop).

Lemma keeps_ret {A} (a : A) (Q : A → Prop) : Q a → keeps I (ret a) Q.
Proof. intros Ha s Hs. by split. Qed.

Lemma keeps_throw {A} (e : Exn) (Q : A → Prop) : keeps I (throw e) Q.
Proof. intros s Hs. done. Qed.

Lemma keeps_bind {A B} (c : Js A) (k : A → Js B) (Q : A → Prop) (R : B → Prop) :
  keeps I c Q → (∀ a, Q a → keeps I (k a) R) → keeps I (bind c k) R.
Proof.
  intros Hc Hk s Hs. unfold bind. specialize (Hc s Hs).
  destruct (c s) as [[a | e] s']; [| done].
  destruct Hc as [Hs' Ha]. by apply Hk.
Qed.

Lemma keeps_try_catch {A} (c : Js A) (h : Exn → Js A) (Q : A → Prop) :
  keeps I c Q → (∀ e, keeps I (h e) Q) → keeps I (try_catch c h) Q.
Proof.
  intros Hc Hh s Hs. unfold try_catch. specialize (Hc s Hs).
  destruct (c s) as [[a | e] s']; [done |]. by apply Hh.
Qed.


Lemma keeps_probe (m : Medium) : keeps I (probe m) (λ _, True).
Proof. intros s Hs. unfold probe. by destruct (online m && accepts m WProbe). Qed.

Lemma keeps_JSON_parse {A} (item : Slot (list A)) (Q : list A → Prop) :
  Q (slot_list item) → keeps I (JSON_parse item) Q.
Proof. intros HQ s Hs. by destruct item. Qed.
End keeps_rules.

Lemma keeps_getItem_users (m : Medium) :
  keeps store_invariant (getItem_users m) (λ item, emails_unique (slot_list item)).
Proof.
  intros s Hs. unfold getItem_users. destruct (online m); [| done].
  split; [done |]. apply Hs.
Qed.

Lemma keeps_getItem_attendance (m : Medium) :
  keeps store_invariant (getItem_attendance m) (λ item, ledger_unique (slot_list item)).
Proof.
  intros s Hs. unfold getItem_attendance. destruct (online m); [| done].
  split; [done |]. apply Hs.
Qed.

Lemma keeps_setItem_users (m : Medium) (v : list UserData) :
  emails_unique v → keeps store_invariant (setItem_users m v) (λ _, True).
Proof.
  intros Hv s [Hl He]. unfold setItem_users.
  destruct (online m && accepts m (WUsers v)); [| by split].
  split; [| done]. split; [| done]. destruct s; exact Hl.
Qed.

Lemma keeps_setItem_attendance (m : Medium) (v : list AttendanceRecord) :
  ledger_unique v → keeps store_invariant (setItem_attendance m v) (λ _, True).
Proof.
  intros Hv s [Hl He]. unfold setItem_attendance.
  destruct (online m && accepts m (WAttendance v)); [| by split].
  split; [| done]. split; [done |]. destruct s; exact He.
Qed.

Lemma keeps_initializeStorage (m : Medium) :
  keeps store_invariant (initializeStorage m) (λ _, True).
Proof.
  intros s [Hl He]. destruct (initializeStorage_kept m s) as (s0 & -> & Ku & Kr).
  split; [| done]. unfold store_invariant, events, identities.
  by rewrite (item_kept_list _ _ Ku), (item_kept_list _ _ Kr).
Qed.

Lemma keeps_read_users (m : Medium) :
  keeps store_invariant (bind (getItem_users m) (λ item, JSON_parse item)) emails_unique.
Proof.
  eapply keeps_bind; [apply keeps_getItem_users |].
  intros item Hitem. by apply keeps_JSON_parse.
Qed.

Lemma keeps_read_attendance (m : Medium) :
  keeps store_invariant (bind (getItem_attendance m) (λ item, JSON_parse item)) ledger_unique.
Proof.
  eapply keeps_bind; [apply keeps_getItem_attendance |].
  intros item Hitem. by apply keeps_JSON_parse.
Qed.

(** *** Lists with a unique key *)

Lemma filter_none {A} (P : A → Prop) `{∀ x, Decision (P x)} (l : list A) :
  Forall (λ x, ¬ P x) l → filter P l = [].
Proof.
  induction 1 as [| x l Hx _ IH]; [done |].
  by rewrite filter_cons_False.
Qed.

Lemma filter_unique_key {A K} `{EqDecision K} (f : A → K) (l : list A) (x : A) :
  NoDup (f <$> l) → x ∈ l → filter (λ y, f y = f x) l = [x].
Proof.
  induction l as [| y l IH]; intros Hnd Hx; [by apply elem_of_nil in Hx |].
  rewrite fmap_cons in Hnd. apply NoDup_cons in Hnd as [Hy Hnd].
  apply elem_of_cons in Hx as [<- | Hx].
  - rewrite filter_cons_True by done. f_equal.
    apply filter_none, Forall_forall. intros z Hz Hfz.
    apply Hy. rewrite <- Hfz. by apply list_elem_of_fmap_2.
  - rewrite filter_cons_False; [by apply IH |].
    intros Hfy. apply Hy. rewrite Hfy. by apply list_elem_of_fmap_2.
Qed.

Lemma insert_same_key {A K} (f : A → K) (l : list A) (i : nat) (x v : A) :
  l !! i = Some x → f v = f x → f <$> <[i := v]> l = f <$> l.
Proof.
  intros Hi Hf. rewrite list_fmap_insert, Hf.
  apply list_insert_id. by rewrite list_lookup_fmap, Hi.
Qed.

Lemma append_new_key {A K} (f : A → K) (l : list A) (v : A) :
  NoDup (f <$> l) → Forall (λ y, f y ≠ f v) l → NoDup (f <$> (l ++ [v])).
Proof.
  intros Hnd Hall. rewrite fmap_app. apply NoDup_app. split_and!; [done | | apply NoDup_singleton].
  intros k Hk Hk'. apply list_elem_of_singleton in Hk'. subst k.
  apply list_elem_of_fmap in Hk as (y & Hfy & Hy).
  by apply (proj1 (Forall_forall _ _) Hall y).
Qed.

(** *** Every operation keeps the store invariant *)

Lemma keeps_registerUser (m : Medium) (uuid uuid' : string) (now now' : Z)
    (userData : Registration) :
  keeps store_invariant (registerUser m uuid uuid' now now' userData) (λ _, True).
Proof.
  unfold registerUser.
  eapply keeps_bind; [apply keeps_initializeStorage | intros _ _].
  apply keeps_try_catch.
  - unfold registerUser_try.
    eapply (keeps_bind _ _ _ emails_unique).
    + apply keeps_try_catch; [apply keeps_read_users | intros _].
      eapply keeps_bind; [apply keeps_setItem_users, NoDup_nil_2 | intros _ _].
      apply keeps_ret, NoDup_nil_2.
    + intros users Hu.
      destruct (list_find _ users) as [[i existingUser] |] eqn:Hfind.
      * apply list_find_Some in Hfind as (Hi & _ & _).
        eapply keeps_bind; [| intros _ _; by apply keeps_ret].
        apply keeps_setItem_users. unfold emails_unique.
        by rewrite (insert_same_key u_email users i existingUser).
      * apply list_find_None in Hfind.
        eapply keeps_bind; [| intros _ _; by apply keeps_ret].
        apply keeps_setItem_users, append_new_key; [done |].
        eapply Forall_impl; [exact Hfind |]. done.
  - intros _. unfold registerUser_catch.
    eapply keeps_bind; [| intros _ _; by apply keeps_ret].
    apply keeps_try_catch;
      [apply keeps_setItem_users, NoDup_singleton | intros _; by apply keeps_ret].
Qed.

Lemma existsb_marked_on_false (userId : string) (today : Z) (records : list AttendanceRecord) :
  existsb (marked_on userId today) records = false →
  Forall (λ r, ¬ (r_userId r = userId ∧ r_date r = today)) records.
Proof.
  intros Hex. apply Forall_forall. intros r Hr Hm.
  apply marked_on_spec in Hm.
  assert (existsb (marked_on userId today) records = true); [| congruence].
  apply existsb_exists. exists r. split; [by apply list_elem_of_In | done].
Qed.

Lemma existsb_marked_on_true (userId : string) (today : Z) (records : list AttendanceRecord) :
  existsb (marked_on userId today) records = true →
  ∃ i r, list_find (λ record, marked_on userId today record = true) records = Some (i, r) ∧
         r ∈ records ∧ r_userId r = userId ∧ r_date r = today.
Proof.
  intros Hex. apply existsb_exists in Hex as (r & Hr & Hm).
  apply list_elem_of_In in Hr.
  destruct (list_find_elem_of (λ record, marked_on userId today record = true) records r Hr Hm)
    as [[i r'] Hfind].
  exists i, r'. split; [done |].
  apply list_find_Some in Hfind as (Hi & Hm' & _).
  apply marked_on_spec in Hm' as [? ?].
  split_and!; [by eapply list_elem_of_lookup_2 | done | done].
Qed.

Lemma keeps_markAttendance (m : Medium) (uuid : string) (now now' : Z) (userId : string) :
  keeps store_invariant (markAttendance m uuid now now' userId) (λ _, True).
Proof.
  unfold markAttendance.
  eapply keeps_bind; [apply keeps_initializeStorage | intros _ _].
  eapply keeps_bind; [apply keeps_getItem_users | intros uitem _].
  eapply keeps_bind; [by apply (keeps_JSON_parse _ _ (λ _, True)) | intros users _].
  eapply keeps_bind; [apply keeps_getItem_attendance | intros aitem Ha].
  eapply keeps_bind; [apply (keeps_JSON_parse _ _ ledger_unique Ha) | intros records Hr].
  destruct (list_find _ users) as [[i user] |] eqn:Hfind; [| apply keeps_throw].
  apply list_find_Some in Hfind as (_ & Hid & _).
  destruct (existsb _ records) eqn:Hex; [by apply keeps_ret |].
  eapply keeps_bind; [| intros _ _; by apply keeps_ret].
  apply keeps_setItem_attendance, append_new_key; [done |].
  eapply Forall_impl; [apply (existsb_marked_on_false _ _ _ Hex) |].
  simpl. intros r Hne [= Hu Hd]. apply Hne. split; congruence.
Qed.

Lemma keeps_checkAttendanceStatus (m : Medium) (now : Z) (userId : string) :
  keeps store_invariant (checkAttendanceStatus m now userId) (λ _, True).
Proof.
  unfold checkAttendanceStatus.
  eapply keeps_bind; [apply keeps_initializeStorage | intros _ _].
  eapply keeps_bind; [apply keeps_getItem_attendance | intros item _].
  eapply keeps_bind; [by apply (keeps_JSON_parse _ _ (λ _, True)) | intros records _].
  by apply keeps_ret.
Qed.

Lemma keeps_getAttendanceRecords (m : Medium) :
  keeps store_invariant (getAttendanceRecords m) (λ _, True).
Proof.
  unfold getAttendanceRecords.
  eapply keeps_bind; [apply keeps_initializeStorage | intros _ _].
  eapply keeps_bind; [apply keeps_getItem_attendance | intros item _].
  eapply keeps_bind; [by apply (keeps_JSON_parse _ _ (λ _, True)) | intros records _].
  by apply keeps_ret.
Qed.

Lemma keeps_getAllUsers (m : Medium) :
  keeps store_invariant (getAllUsers m) (λ _, True).
Proof.
  unfold getAllUsers.
  eapply keeps_bind; [apply keeps_initializeStorage | intros _ _].
  eapply keeps_bind; [apply keeps_getItem_users | intros item _].
  eapply keeps_bind; [by apply (keeps_JSON_parse _ _ (λ _, True)) | intros users _].
  by apply keeps_ret.
Qed.

Lemma keeps_getUsersData (fround : Q → Q) (m : Medium) :
  keeps store_invariant (getUsersData fround m) (λ _, True).
Proof.
  unfold getUsersData.
  eapply keeps_bind; [apply keeps_initializeStorage | intros _ _].
  eapply keeps_bind; [apply keeps_getItem_users | intros item _].
  eapply keeps_bind; [by apply (keeps_JSON_parse _ _ (λ _, True)) | intros users _].
  destruct (length users =? 0)%nat; by apply keeps_ret.
Qed.

Lemma keeps_snd {A} (c : Js A) (Q : A → Prop) (s : LocalStorage) :
  keeps store_invariant c Q → store_invariant s → store_invariant (snd (c s)).
Proof.
  intros Hc Hs. specialize (Hc s Hs). destruct (c s) as [[a | e] s']; [apply Hc | done].
Qed.

Lemma step_invariant (s s' : LocalStorage) :
  step s s' → store_invariant s → store_invariant s'.
Proof.
  destruct 1; eapply keeps_snd;
    eauto using keeps_registerUser, keeps_getUsersData, keeps_checkAttendanceStatus,
      keeps_markAttendance, keeps_getAttendanceRecords, keeps_getAllUsers.
Qed.

Lemma reachable_invariant (s : LocalStorage) : reachable s → store_invariant s.
Proof.
  induction 1 as [| s s' _ IH Hstep].
  - split; apply NoDup_nil_2.
  - by eapply step_invariant.
Qed.

(** *** [markAttendance], step by step *)

Lemma markAttendance_readable (m : Medium) (uuid : string) (now now' : Z) (userId : string)
    (s : LocalStorage) :
  readable m s →
  ∃ s0, initializeStorage m s = (Returned tt, s0) ∧ events s0 = events s ∧
    markAttendance m uuid now now' userId s =
    match list_find (λ u, u_id u = userId) (identities s) with
    | None => (Thrown (JsError "User not found"), s0)
    | Some (_, user) =>
        if existsb (marked_on userId (date_of now)) (events s) then
          (Returned (snd <$> list_find (λ record, marked_on userId (date_of now) record = true)
                                       (events s)), s0)
        else
          bind (setItem_attendance m
                  (events s ++ [mkRecord uuid (u_id user) (u_name user) now' (date_of now)]))
               (λ _, ret (Some (mkRecord uuid (u_id user) (u_name user) now' (date_of now)))) s0
    end.
Proof.
  intros Hr. pose proof Hr as [Hon _].
  destruct (initializeStorage_readable m s Hr) as (s0 & Hs0 & Hi & He & Hgu & Hgr).
  exists s0. split_and!; [done | done |].
  unfold markAttendance. unfold bind at 1. rewrite Hs0.
  rewrite read_users by done. rewrite read_attendance by done. rewrite Hi, He.
  destruct (list_find _ (identities s)) as [[i user] |]; [| done].
  by destruct (existsb _ (events s)).
Qed.

Lemma markAttendance_returned (m : Medium) (uuid : string) (now now' : Z) (userId : string)
    (s s1 : LocalStorage) (r : option AttendanceRecord) :
  markAttendance m uuid now now' userId s = (Returned r, s1) →
  ∃ i user records,
    s1 = mkStorage (Holds (identities s)) (Holds records) ∧
    list_find (λ u, u_id u = userId) (identities s) = Some (i, user) ∧
    ((existsb (marked_on userId (date_of now)) (events s) = true ∧ records = events s ∧
      r = snd <$> list_find (λ record, marked_on userId (date_of now) record = true) (events s)) ∨
     (existsb (marked_on userId (date_of now)) (events s) = false ∧
      records = events s ++ [mkRecord uuid (u_id user) (u_name user) now' (date_of now)] ∧
      r = Some (mkRecord uuid (u_id user) (u_name user) now' (date_of now)))).
Proof.
  destruct (initializeStorage_kept m s) as (s0 & Hs0 & Ku & Kr).
  apply item_kept_list in Ku, Kr. unfold identities, events. rewrite <- Ku, <- Kr.
  unfold markAttendance. unfold bind at 1. rewrite Hs0. clear Hs0 Ku Kr.
  destruct s0 as [us rs].
  unfold bind, ret, throw, getItem_users, getItem_attendance, setItem_attendance, JSON_parse; simpl.
  destruct (online m); simpl; [| done].
  destruct us as [| | us], rs as [| | rs]; simpl; try done.
  - destruct (list_find _ us) as [[i user] |] eqn:Hfind; simpl; [| done].
    destruct (accepts m _); simpl; [| done].
    intros [= <- <-]. exists i, user. eexists. split_and!; [done | done |]. right. done.
  - destruct (list_find _ us) as [[i user] |] eqn:Hfind; simpl; [| done].
    destruct (existsb _ rs) eqn:Hex; simpl.
    + intros [= <- <-]. exists i, user, rs. split_and!; [done | done |]. left. done.
    + destruct (accepts m _); simpl; [| done].
      intros [= <- <-]. exists i, user. eexists. split_and!; [done | done |]. right. done.
Qed.

Lemma markAttendance_thrown (m : Medium) (uuid : string) (now now' : Z) (userId : string)
    (s s1 : LocalStorage) (e : Exn) :
  markAttendance m uuid now now' userId s = (Thrown e, s1) → events s1 = events s.
Proof.
  destruct (initializeStorage_kept m s) as (s0 & Hs0 & _ & Kr).
  apply item_kept_list in Kr. unfold events. rewrite <- Kr.
  unfold markAttendance. unfold bind at 1. rewrite Hs0. clear Hs0 Kr.
  unfold bind, ret, throw, getItem_users, getItem_attendance, setItem_attendance, JSON_parse; simpl.
  destruct s0 as [us rs].
  destruct (online m); simpl; [| by intros [= _ <-]].
  destruct us as [| | us], rs as [| | rs]; simpl; try (by intros [= _ <-]).
  - destruct (list_find _ us) as [[i user] |]; simpl; [| by intros [= _ <-]].
    destruct (accepts m _); simpl; [done | by intros [= _ <-]].
  - destruct (list_find _ us) as [[i user] |]; simpl; [| by intros [= _ <-]].
    destruct (existsb _ rs); simpl; [done |].
    destruct (accepts m _); simpl; [done | by intros [= _ <-]].
Qed.

Lemma day_filter_key (userId : string) (today : Z) (records : list AttendanceRecord)
    (e : AttendanceRecord) :
  r_userId e = userId → r_date e = today →
  filter (λ r, r_userId r = userId ∧ r_date r = today) records
  = filter (λ r, (r_userId r, r_date r) = (r_userId e, r_date e)) records.
Proof.
  intros <- <-. apply list_filter_iff. intros r. split; [intros [-> ->]; done | by intros [= -> ->]].
Qed.

Lemma markAttendance_again (m1 m2 : Medium) (uuid1 uuid2 userId : string) (t1 t1' t2 t2' : Z)
    (s s1 : LocalStorage) (r1 : option AttendanceRecord) :
  ledger_unique (events s) →
  markAttendance m1 uuid1 t1 t1' userId s = (Returned r1, s1) →
  online m2 = true →
  date_of t2 = date_of t1 →
  ∃ e, r1 = Some e ∧
       markAttendance m2 uuid2 t2 t2' userId s1 = (Returned (Some e), s1) ∧
       filter (λ r, r_userId r = userId ∧ r_date r = date_of t1) (events s1) = [e].
Proof.
  intros Huniq Hfirst Hon Hday.
  apply markAttendance_returned in Hfirst as (i & user & records & -> & Hfind & Hcase).
  assert (Hr2 : readable m2 (mkStorage (Holds (identities s)) (Holds records))) by (split; auto).
  destruct (markAttendance_readable m2 uuid2 t2 t2' userId _ Hr2) as (s0 & Hs0 & _ & ->).
  rewrite initializeStorage_settled in Hs0. injection Hs0 as <-.
  change (identities (mkStorage (Holds (identities s)) (Holds records))) with (identities s).
  change (events (mkStorage (Holds (identities s)) (Holds records))) with records.
  rewrite Hfind, Hday.
  pose proof Hfind as (_ & Hid & _)%list_find_Some.
  destruct Hcase as [(Hex & -> & ->) | (Hex & -> & ->)].
  - destruct (existsb_marked_on_true _ _ _ Hex) as (j & e & Hfe & Hin & Hu & Hd).
    exists e. rewrite Hex, Hfe. split_and!; [done | done |].
    rewrite (day_filter_key _ _ _ e Hu Hd).
    by apply (filter_unique_key (λ r, (r_userId r, r_date r))).
  - eexists. split; [done |].
    pose proof (existsb_marked_on_false _ _ _ Hex) as Hnone.
    rewrite existsb_app. simpl. unfold marked_on at 2. simpl.
    rewrite !bool_decide_eq_true_2 by done. rewrite orb_true_r.
    split.
    + rewrite list_find_app_r.
      * simpl. rewrite decide_True; [done |]. by apply marked_on_spec.
      * apply list_find_None. eapply Forall_impl; [exact Hnone |].
        simpl. intros r Hr Hm. by apply Hr, marked_on_spec.
    + rewrite filter_app, (filter_none _ _ Hnone). simpl.
      by rewrite filter_cons_True.
Qed.

Lemma mark_write (m : Medium) (v : list AttendanceRecord) (r : option AttendanceRecord)
    (s0 : LocalStorage) :
  online m = true →
  bind (setItem_attendance m v) (λ _, ret r) s0
  = if accepts m (WAttendance v)
    then (Returned r, mkStorage (users_item s0) (Holds v))
    else (Thrown DOMException, s0).
Proof.
  intros Hon. unfold bind, setItem_attendance, ret. rewrite Hon. simpl.
  by destruct (accepts m (WAttendance v)).
Qed.

(** The first mark of a stored user: on a store that can be read, by a
    medium that takes the write of the records, the call returns a record of
    that user and day, either the one already stored or a new one that it
    has appended. *)
Lemma markAttendance_first (m : Medium) (uuid userId : string) (now now' : Z)
    (u : UserData) (s : LocalStorage) :
  readable m s → (∀ v, accepts m (WAttendance v) = true) →
  u ∈ identities s → u_id u = userId →
  ∃ e s1,
    markAttendance m uuid now now' userId s = (Returned (Some e), s1) ∧
    r_userId e = userId ∧ r_date e = date_of now ∧
    ((e ∈ events s ∧ events s1 = events s) ∨
     (Forall (λ r, ¬ (r_userId r = userId ∧ r_date r = date_of now)) (events s) ∧
      events s1 = events s ++ [e] ∧ r_id e = uuid ∧ r_timestamp e = now')).
Proof.
  intros Hr Hacc Hu Hid. pose proof Hr as [Hon _].
  destruct (markAttendance_readable m uuid now now' userId s Hr) as (s0 & Hs0 & He & ->).
  destruct (list_find_elem_of (λ u, u_id u = userId) (identities s) u Hu Hid)
    as [[i user] Hfind].
  rewrite Hfind. apply list_find_Some in Hfind as (_ & Hid' & _).
  destruct (existsb _ (events s)) eqn:Hex.
  - destruct (existsb_marked_on_true _ _ _ Hex) as (j & e & -> & Hin & Hue & Hde).
    exists e, s0. split_and!; [done | done | done |]. by left.
  - rewrite mark_write by done. rewrite Hacc.
    eexists _, _. split_and!; [done | done | done |].
    right. split_and!; [by apply existsb_marked_on_false | done | done | done].
Qed.

(** C1: in every store the service can reach there is at most one attendance
    record per (user, calendar date).  A first call of [markAttendance] for a
    stored user, on a store that can be read and a medium that takes the
    write, returns a record of that user and day and leaves it stored: the
    record that was there, the ledger unchanged, or, when there was none, a
    new record appended to the ledger.  A second call for the same user at a
    time of the same calendar date, on any medium that is online, then
    returns the very same record, writes nothing, and the ledger holds
    exactly one record for that user and date.  The second part holds after
    any first call that returns. *)
Theorem mark_once_per_day :
  (∀ s, reachable s → ledger_unique (events s)) ∧
  (∀ (m1 m2 : Medium) (uuid1 uuid2 userId : string) (u : UserData) (t1 t1' t2 t2' : Z)
     (s : LocalStorage),
      readable m1 s → (∀ v, accepts m1 (WAttendance v) = true) →
      u ∈ identities s → u_id u = userId →
      ledger_unique (events s) →
      online m2 = true →
      date_of t2 = date_of t1 →
      ∃ e s1,
        markAttendance m1 uuid1 t1 t1' userId s = (Returned (Some e), s1) ∧
        r_userId e = userId ∧ r_date e = date_of t1 ∧
        ((e ∈ events s ∧ events s1 = events s) ∨
         (Forall (λ r, ¬ (r_userId r = userId ∧ r_date r = date_of t1)) (events s) ∧
          events s1 = events s ++ [e] ∧ r_id e = uuid1 ∧ r_timestamp e = t1')) ∧
        markAttendance m2 uuid2 t2 t2' userId s1 = (Returned (Some e), s1) ∧
        filter (λ r, r_userId r = userId ∧ r_date r = date_of t1) (events s1) = [e]) ∧
  (∀ (m1 m2 : Medium) (uuid1 uuid2 userId : string) (t1 t1' t2 t2' : Z)
     (s s1 : LocalStorage) (r1 : option AttendanceRecord),
      ledger_unique (events s) →
      markAttendance m1 uuid1 t1 t1' userId s = (Returned r1, s1) →
      online m2 = true →
      date_of t2 = date_of t1 →
      ∃ e, r1 = Some e ∧
           markAttendance m2 uuid2 t2 t2' userId s1 = (Returned (Some e), s1) ∧
           filter (λ r, r_userId r = userId ∧ r_date r = date_of t1) (events s1) = [e]).
Proof.
  split_and!.
  - intros s Hs. by apply reachable_invariant.
  - intros m1 m2 uuid1 uuid2 userId u t1 t1' t2 t2' s Hr Hacc Hu Hid Huniq Hon Hday.
    destruct (markAttendance_first m1 uuid1 userId t1 t1' u s Hr Hacc Hu Hid)
      as (e & s1 & Hrun & Hue & Hde & Hcase).
    destruct (markAttendance_again m1 m2 uuid1 uuid2 userId t1 t1' t2 t2' s s1 (Some e)
                Huniq Hrun Hon Hday) as (e' & [= <-] & Hrun2 & Hone).
    by exists e, s1.
  - intros m1 m2 uuid1 uuid2 userId t1 t1' t2 t2' s s1 r1. apply markAttendance_again.
Qed.

Lemma mark_once_per_day_witness :
  ∃ e s1,
    markAttendance healthy "r-1" t_morning t_morning "u-1" bob_store = (Returned (Some e), s1) ∧
    events s1 = [e] ∧ r_id e = "r-1" ∧
    markAttendance healthy "r-2" t_evening t_evening "u-1" s1 = (Returned (Some e), s1) ∧
    filter (λ r, r_userId r = "u-1" ∧ r_date r = date_of t_morning) (events s1) = [e].
Proof.
  destruct (proj1 (proj2 mark_once_per_day) healthy healthy "r-1" "r-2" "u-1" bob
              t_morning t_morning t_evening t_evening bob_store)
    as (e & s1 & Hrun & _ & _ & Hcase & Hagain & Hone).
  - split; [reflexivity | left; reflexivity].
  - reflexivity.
  - left.
  - reflexivity.
  - apply NoDup_nil_2.
  - reflexivity.
  - reflexivity.
  - exists e, s1. destruct Hcase as [[Hin _] | (_ & Hev & Hid & _)].
    + by apply elem_of_nil in Hin.
    + by split_and!.
Defined.

(** C6: on a store that can be read, [markAttendance] throws the error
    "User not found" exactly when no stored user has the given id.  When
    such a user exists the call never throws an [Error] of its own: if the
    user is already marked for the day it returns the stored record and writes
    nothing, and otherwise it appends one new record carrying the user's id
    and name, the day and the time (failing only if the medium refuses that
    write).  Whenever the call throws, the stored records are unchanged. *)
Theorem markAttendance_user_not_found (m : Medium) (uuid : string) (now now' : Z)
    (userId : string) (s : LocalStorage) :
  readable m s →
  (fst (markAttendance m uuid now now' userId s) = Thrown (JsError "User not found")
   ↔ ∀ u, u ∈ identities s → u_id u ≠ userId) ∧
  (∀ u, u ∈ identities s → u_id u = userId →
     (∀ message, fst (markAttendance m uuid now now' userId s) ≠ Thrown (JsError message)) ∧
     (∀ r, r ∈ events s → r_userId r = userId → r_date r = date_of now →
        ∃ e, e ∈ events s ∧ r_userId e = userId ∧ r_date e = date_of now ∧
             fst (markAttendance m uuid now now' userId s) = Returned (Some e) ∧
             events (snd (markAttendance m uuid now now' userId s)) = events s) ∧
     ((∀ r, r ∈ events s → ¬ (r_userId r = userId ∧ r_date r = date_of now)) →
        ∃ user, user ∈ identities s ∧ u_id user = userId ∧
          let e := mkRecord uuid userId (u_name user) now' (date_of now) in
          fst (markAttendance m uuid now now' userId s)
          = (if accepts m (WAttendance (events s ++ [e]))
             then Returned (Some e) else Thrown DOMException) ∧
          events (snd (markAttendance m uuid now now' userId s))
          = (if accepts m (WAttendance (events s ++ [e])) then events s ++ [e] else events s))) ∧
  (∀ e, fst (markAttendance m uuid now now' userId s) = Thrown e →
        events (snd (markAttendance m uuid now now' userId s)) = events s).
Proof.
  intros Hr. pose proof Hr as [Hon _].
  destruct (markAttendance_readable m uuid now now' userId s Hr) as (s0 & _ & He & Heq).
  split_and!.
  - rewrite Heq.
    destruct (list_find _ (identities s)) as [[i user] |] eqn:Hfind.
    + apply list_find_Some in Hfind as (Hi & Hid & _).
      split.
      * destruct (existsb _ (events s)); [done |].
        rewrite mark_write by done. by destruct (accepts m _).
      * intros Hno. exfalso. eapply Hno; [by eapply list_elem_of_lookup_2 | done].
    + apply list_find_None in Hfind. split; [| done].
      intros _ u Hu. by apply (proj1 (Forall_forall _ _) Hfind).
  - intros u Hu Hid.
    destruct (list_find_elem_of (λ u, u_id u = userId) (identities s) u Hu Hid)
      as [[i user] Hfind].
    rewrite Heq, Hfind.
    apply list_find_Some in Hfind as (Hi & Hid' & _).
    split_and!.
    + intros message. destruct (existsb _ (events s)); [done |].
      rewrite mark_write by done. by destruct (accepts m _).
    + intros r Hin Hu' Hd.
      assert (Hex : existsb (marked_on userId (date_of now)) (events s) = true).
      { apply existsb_exists. exists r. split; [by apply list_elem_of_In |].
        by apply marked_on_spec. }
      rewrite Hex.
      destruct (existsb_marked_on_true _ _ _ Hex) as (j & e & -> & Hine & Hue & Hde).
      exists e. by split_and!.
    + intros Hnone.
      assert (Hex : existsb (marked_on userId (date_of now)) (events s) = false).
      { apply not_true_is_false. intros Hex.
        destruct (existsb_marked_on_true _ _ _ Hex) as (j & e & _ & Hine & Hue & Hde).
        by apply (Hnone e). }
      rewrite Hex. exists user. split_and!; [by eapply list_elem_of_lookup_2 | done |].
      simpl. rewrite mark_write by done. rewrite Hid'.
      destruct (accepts m _); simpl; [by split | by split].
  - intros e Hthrown.
    destruct (markAttendance m uuid now now' userId s) as [o s1] eqn:Hrun.
    simpl in *. subst o. by eapply markAttendance_thrown.
Qed.

Lemma markAttendance_user_not_found_witness :
  fst (markAttendance healthy "r-1" t_morning t_morning "u-2" bob_store)
  = Thrown (JsError "User not found")
  ↔ ∀ u, u ∈ identities bob_store → u_id u ≠ "u-2".
Proof.
  apply (markAttendance_user_not_found healthy "r-1" t_morning t_morning "u-2" bob_store).
  split; [reflexivity | left; reflexivity].
Defined.

(** C9: on a store that can be read, [getAttendanceRecords] returns the
    stored records, all of them and no others, ordered by timestamp with the
    newest first; three records with times T3 > T1 > T2, stored in any order,
    come back as [T3, T1, T2]. *)
Theorem getAttendanceRecords_newest_first (m : Medium) (s : LocalStorage) :
  readable m s →
  ∃ records,
    fst (getAttendanceRecords m s) = Returned records ∧
    records ≡ₚ events s ∧
    StronglySorted newer_or_same records ∧
    (∀ e1 e2 e3,
        events s ≡ₚ [e1; e2; e3] →
        r_timestamp e2 < r_timestamp e1 → r_timestamp e1 < r_timestamp e3 →
        records = [e3; e1; e2]).
Proof.
  intros Hr. destruct (getAttendanceRecords_readable m s Hr) as (s0 & Hrun & _).
  exists (Array_sort newest_first (events s)). rewrite Hrun.
  split_and!; [done | apply Array_sort_perm | apply Array_sort_newest_first |].
  intros e1 e2 e3 Hp H21 H13.
  apply (StronglySorted_unique_strong newer_or_same).
  - intros x1 x2 Hx1 Hx2. rewrite Array_sort_perm, Hp in Hx1.
    unfold newer_or_same. intros Hle Hge.
    rewrite !elem_of_cons, elem_of_nil in Hx1, Hx2.
    destruct Hx1 as [-> | [-> | [-> | []]]], Hx2 as [-> | [-> | [-> | []]]]; (done || lia).
  - apply Array_sort_newest_first.
  - unfold newer_or_same. repeat constructor; lia.
  - rewrite Array_sort_perm, Hp.
    apply (Permutation_app_comm [e1; e2] [e3]).
Qed.

Lemma getAttendanceRecords_newest_first_witness :
  ∃ records, fst (getAttendanceRecords healthy two_day_store) = Returned records ∧
             StronglySorted newer_or_same records.
Proof.
  destruct (getAttendanceRecords_newest_first healthy two_day_store) as (records & Hrun & _ & Hs & _).
  - split; [reflexivity | left; reflexivity].
  - by exists records.
Defined.

(** C5: on a store that can be read, [checkAttendanceStatus] reports
    [markedToday = true] exactly when a record of that user dated today is
    stored, and [lastMarked] is the greatest timestamp among the user's
    records of all dates, or [null] when the user has none.  After a mark on
    one day and a mark on a later, not yet marked day, the status on that
    day has [markedToday = true] and [lastMarked] equal to the timestamp of
    the second day's record. *)
Theorem checkAttendanceStatus_reports (m : Medium) (now : Z) (userId : string)
    (s : LocalStorage) :
  readable m s →
  ∃ st,
    fst (checkAttendanceStatus m now userId s) = Returned st ∧
    (markedToday st = true
     ↔ ∃ r, r ∈ events s ∧ r_userId r = userId ∧ r_date r = date_of now) ∧
    match lastMarked st with
    | Some t => (∃ r, r ∈ events s ∧ r_userId r = userId ∧ r_timestamp r = t) ∧
                ∀ r, r ∈ events s → r_userId r = userId → r_timestamp r ≤ t
    | None => ∀ r, r ∈ events s → r_userId r ≠ userId
    end ∧
    (∀ (m1 m2 : Medium) (uuid1 uuid2 : string) (t1 t1' t2 t2' : Z) (s0 s1 : LocalStorage)
       (e1 e2 : AttendanceRecord),
        markAttendance m1 uuid1 t1 t1' userId s0 = (Returned (Some e1), s1) →
        markAttendance m2 uuid2 t2 t2' userId s1 = (Returned (Some e2), s) →
        (∀ r, r ∈ events s1 → r_userId r = userId →
              r_date r ≠ date_of t2 ∧ r_timestamp r ≤ t2') →
        date_of now = date_of t2 →
        r_date e2 = date_of t2 ∧ markedToday st = true ∧ lastMarked st = Some (r_timestamp e2)).
Proof.
  intros Hr. destruct (checkAttendanceStatus_readable m now userId s Hr) as (s' & Hrun & _).
  eexists. rewrite Hrun. simpl.
  assert (Htoday :
    bool_decide (is_Some (list_find (λ record, marked_on userId (date_of now) record = true)
                                    (events s))) = true
    ↔ ∃ r, r ∈ events s ∧ r_userId r = userId ∧ r_date r = date_of now).
  { rewrite bool_decide_eq_true. split.
    - intros [[i r] Hfind]. apply list_find_Some in Hfind as (Hi & Hm & _).
      apply marked_on_spec in Hm as [? ?].
      exists r. split_and!; [by eapply list_elem_of_lookup_2 | done | done].
    - intros (r & Hin & Hu & Hd).
      eapply list_find_elem_of; [exact Hin |]. by apply marked_on_spec. }
  assert (Hlast :
    match r_timestamp <$>
            Array_sort newest_first (filter (λ record, r_userId record = userId) (events s))
            !! 0%nat with
    | Some t => (∃ r, r ∈ events s ∧ r_userId r = userId ∧ r_timestamp r = t) ∧
                ∀ r, r ∈ events s → r_userId r = userId → r_timestamp r ≤ t
    | None => ∀ r, r ∈ events s → r_userId r ≠ userId
    end).
  { pose proof (Array_sort_head (filter (λ record, r_userId record = userId) (events s)))
      as Hhead.
    destruct (Array_sort newest_first _ !! 0%nat) as [r |]; simpl.
    - destruct Hhead as [Hin Hmax]. apply list_elem_of_filter in Hin as [Hu Hin].
      split; [by exists r |].
      intros r' Hin' Hu'. apply Hmax. by apply list_elem_of_filter.
    - intros r Hin Hu.
      assert (Hf : r ∈ filter (λ record, r_userId record = userId) (events s))
        by (by apply list_elem_of_filter).
      rewrite Hhead in Hf. by apply elem_of_nil in Hf. }
  split_and!; [done | exact Htoday | exact Hlast |].
  intros m1 m2 uuid1 uuid2 t1 t1' t2 t2' s0 s1 e1 e2 _ Hsecond Hold Hday.
  apply markAttendance_returned in Hsecond as (i & user & records & -> & Hfind & Hcase).
  apply list_find_Some in Hfind as (_ & Hid & _).
  change (events (mkStorage (Holds (identities s1)) (Holds records))) with records in *.
  destruct Hcase as [(Hex & _ & _) | (Hex & -> & [= ->])].
  { destruct (existsb_marked_on_true _ _ _ Hex) as (j & e & _ & Hin & Hu & Hd).
    by destruct (Hold e Hin Hu). }
  simpl. split; [done |]. split.
  - apply Htoday. eexists. split; [apply elem_of_app; right; left |]. simpl. by rewrite Hday.
  - destruct (r_timestamp <$> Array_sort newest_first _ !! 0%nat) as [t |].
    + destruct Hlast as [(r & Hin & Hu & Ht) Hmax]. f_equal.
      assert (t2' ≤ t).
      { apply (Hmax (mkRecord uuid2 (u_id user) (u_name user) t2' (date_of t2)));
          [apply elem_of_app; right; left | done]. }
      apply elem_of_app in Hin as [Hin | Hin].
      * destruct (Hold r Hin Hu). lia.
      * apply list_elem_of_singleton in Hin. subst r. simpl in Ht. lia.
    + exfalso.
      apply (Hlast (mkRecord uuid2 (u_id user) (u_name user) t2' (date_of t2)));
        [apply elem_of_app; right; left | done].
Qed.

Lemma checkAttendanceStatus_reports_witness :
  ∃ st, fst (checkAttendanceStatus healthy t_next_day "u-1" two_day_store) = Returned st ∧
        markedToday st = true ∧ lastMarked st = Some t_next_day.
Proof.
  destruct (checkAttendanceStatus_reports healthy t_next_day "u-1" two_day_store)
    as (st & Hrun & _ & _ & Hdays).
  - split; [reflexivity | left; reflexivity].
  - exists st. split; [exact Hrun |].
    apply (Hdays healthy healthy "r-1" "r-3" t_morning t_morning t_next_day t_next_day
             bob_store (mkStorage (Holds [bob]) (Holds [bob_morning])) bob_morning bob_next_day).
    + vm_compute. reflexivity.
    + vm_compute. reflexivity.
    + intros r Hin Hu. apply list_elem_of_singleton in Hin. subst r.
      split; [vm_compute; discriminate | vm_compute; discriminate].
    + reflexivity.
Defined.

(** *** [registerUser] on a medium that works *)

Lemma identities_Holds (us : list UserData) (item : Slot (list AttendanceRecord)) :
  identities (mkStorage (Holds us) item) = us.
Proof. reflexivity. Qed.

Lemma registerUser_works (m : Medium) (uuid uuid' : string) (now now' : Z)
    (userData : Registration) (s : LocalStorage) :
  works m →
  registerUser m uuid uuid' now now' userData s =
  match list_find (λ user, u_email user = email userData) (identities s) with
  | Some (i, existingUser) =>
      (Returned (mkUser (u_id existingUser) (name userData) (u_email existingUser)
                        (faceDescriptor userData) now),
       mkStorage (Holds (<[i := mkUser (u_id existingUser) (name userData) (u_email existingUser)
                                       (faceDescriptor userData) now]> (identities s)))
                 (Holds (events s)))
  | None =>
      (Returned (mkUser uuid (name userData) (email userData) (faceDescriptor userData) now),
       mkStorage (Holds (identities s ++
                         [mkUser uuid (name userData) (email userData) (faceDescriptor userData) now]))
                 (Holds (events s)))
  end.
Proof.
  intros Hw. pose proof Hw as [Hon Hacc].
  unfold registerUser. unfold bind at 1. rewrite initializeStorage_works by done.
  unfold try_catch at 1, registerUser_try. unfold bind at 1, try_catch at 1.
  unfold bind at 1, getItem_users. rewrite Hon. simpl.
  change (slot_list (users_item s)) with (identities s).
  destruct (list_find _ (identities s)) as [[i existingUser] |];
    unfold bind, setItem_users, ret; rewrite Hon, Hacc; reflexivity.
Qed.

(** The record a registration returns is stored, first of its email. *)
Lemma registerUser_stored (m : Medium) (uuid uuid' : string) (now now' : Z)
    (userData : Registration) (s : LocalStorage) :
  works m →
  ∃ i u s1,
    registerUser m uuid uuid' now now' userData s = (Returned u, s1) ∧
    list_find (λ user, u_email user = email userData) (identities s1) = Some (i, u) ∧
    (emails_unique (identities s) → emails_unique (identities s1)).
Proof.
  intros Hw. rewrite registerUser_works by done.
  destruct (list_find _ (identities s)) as [[i existingUser] |] eqn:Hfind.
  - apply list_find_Some in Hfind as (Hi & Hmail & Hleast).
    eexists i, _, _. split; [done |]. rewrite identities_Holds. split.
    + apply list_find_Some. split_and!.
      * apply list_lookup_insert_eq. by eapply lookup_lt_Some.
      * done.
      * intros j y Hj Hlt. rewrite list_lookup_insert_ne in Hj by lia. by eapply Hleast.
    + unfold emails_unique.
      by rewrite (insert_same_key u_email (identities s) i existingUser).
  - apply list_find_None in Hfind.
    eexists (length (identities s)), _, _. split; [done |]. rewrite identities_Holds. split.
    + apply list_find_Some. split_and!.
      * apply list_lookup_middle. done.
      * done.
      * intros j y Hj Hlt. rewrite lookup_app_l in Hj by done.
        apply (proj1 (Forall_forall _ _) Hfind y). by eapply list_elem_of_lookup_2.
    + intros Hu. apply append_new_key; [done |].
      eapply Forall_impl; [exact Hfind |]. done.
Qed.

(** C3: on a medium that works.  If a stored user has the email,
    [registerUser] replaces the name, face descriptor and registration time
    of the first such user in place, keeps its id, returns the updated record
    and adds nothing; otherwise it appends a new user whose id is the
    generated uuid.  After two registrations with one email, in a store
    where emails are unique (as in every store the service can reach), just
    one user has that email and it carries the fields of the second call. *)
Theorem registerUser_upserts (m : Medium) (uuid uuid' : string) (now now' : Z)
    (userData : Registration) (s : LocalStorage) :
  works m →
  (∀ i existingUser,
      list_find (λ user, u_email user = email userData) (identities s) = Some (i, existingUser) →
      let updated := mkUser (u_id existingUser) (name userData) (email userData)
                            (faceDescriptor userData) now in
      registerUser m uuid uuid' now now' userData s
      = (Returned updated, mkStorage (Holds (<[i := updated]> (identities s))) (Holds (events s))) ∧
      length (<[i := updated]> (identities s)) = length (identities s)) ∧
  (list_find (λ user, u_email user = email userData) (identities s) = None →
      let newUser := mkUser uuid (name userData) (email userData) (faceDescriptor userData) now in
      registerUser m uuid uuid' now now' userData s
      = (Returned newUser, mkStorage (Holds (identities s ++ [newUser])) (Holds (events s)))) ∧
  (reachable s → emails_unique (identities s)) ∧
  (∀ (uuid2 uuid2' : string) (now2 now2' : Z) (userData2 : Registration),
      emails_unique (identities s) →
      email userData2 = email userData →
      ∃ u1 s1 u2 s2,
        registerUser m uuid uuid' now now' userData s = (Returned u1, s1) ∧
        registerUser m uuid2 uuid2' now2 now2' userData2 s1 = (Returned u2, s2) ∧
        filter (λ user, u_email user = email userData) (identities s2) = [u2] ∧
        u2 = mkUser (u_id u1) (name userData2) (email userData2) (faceDescriptor userData2) now2 ∧
        length (identities s2) = length (identities s1)).
Proof.
  intros Hw. split_and!.
  - intros i existingUser Hfind updated. subst updated.
    rewrite registerUser_works by done. rewrite Hfind.
    apply list_find_Some in Hfind as (_ & -> & _).
    split; [done | apply length_insert].
  - intros Hfind newUser. rewrite registerUser_works by done. by rewrite Hfind.
  - intros Hs. by apply reachable_invariant.
  - intros uuid2 uuid2' now2 now2' userData2 Huniq Hmail.
    destruct (registerUser_stored m uuid uuid' now now' userData s Hw)
      as (i & u1 & s1 & Hrun1 & Hfind1 & Huniq1).
    specialize (Huniq1 Huniq).
    exists u1, s1. rewrite Hrun1.
    rewrite (registerUser_works m uuid2 uuid2' now2 now2' userData2 s1 Hw).
    rewrite Hmail, Hfind1.
    apply list_find_Some in Hfind1 as (Hi & Hm1 & _).
    eexists _, _.
    split_and!; [done | done | | by rewrite Hm1 | rewrite identities_Holds; apply length_insert].
    rewrite identities_Holds, <- Hm1.
    apply (filter_unique_key u_email
             (<[i := mkUser (u_id u1) (name userData2) (u_email u1) (faceDescriptor userData2) now2]>
                (identities s1))
             (mkUser (u_id u1) (name userData2) (u_email u1) (faceDescriptor userData2) now2)).
    + by rewrite (insert_same_key u_email (identities s1) i u1).
    + eapply list_elem_of_lookup_2. apply list_lookup_insert_eq. by eapply lookup_lt_Some.
Qed.

Lemma registerUser_upserts_witness :
  ∃ u1 s1 u2 s2,
    registerUser healthy "u-7" "u-8" t_morning t_morning alice bob_store = (Returned u1, s1) ∧
    registerUser healthy "u-9" "u-10" t_evening t_evening alice_b s1 = (Returned u2, s2) ∧
    filter (λ user, u_email user = email alice) (identities s2) = [u2] ∧
    u2 = mkUser (u_id u1) (name alice_b) (email alice_b) (faceDescriptor alice_b) t_evening ∧
    length (identities s2) = length (identities s1).
Proof.
  apply (registerUser_upserts healthy "u-7" "u-8" t_morning t_morning alice bob_store).
  - split; reflexivity.
  - apply NoDup_singleton.
  - reflexivity.
Defined.

(** *** [registerUser] when the medium fails *)

(** C7, refuted as stated.  On a medium whose quota refuses the list of two
    users, the write in the [try] block throws, and [registerUser] returns a
    record all the same, with the fallback id, and the stored user Bob is
    replaced by that record.  On a medium where every access throws,
    [registerUser] returns a record too. *)
Lemma registerUser_masks_storage_failure :
  registerUser_try one_user_quota "u-2" t_morning alice bob_store
  = (Thrown DOMException, bob_store) ∧
  registerUser one_user_quota "u-2" "u-3" t_morning t_evening alice bob_store
  = (Returned (mkUser "u-3" "Alice" "a@x.com" [1; 0; 0]%Q t_evening),
     mkStorage (Holds [mkUser "u-3" "Alice" "a@x.com" [1; 0; 0]%Q t_evening]) (Holds [])) ∧
  registerUser offline "u-2" "u-3" t_morning t_evening alice bob_store
  = (Returned (mkUser "u-3" "Alice" "a@x.com" [1; 0; 0]%Q t_evening), bob_store).
Proof. split_and!; reflexivity. Qed.

(** C7, as the code has it: [registerUser] never throws.  When its [try]
    block returns, [registerUser] returns that record; when the [try] block
    throws (a read or a write failed), [registerUser] returns the fallback
    record, made of the given name, email and face descriptor with the id and
    the time read in the [catch] block, and writes the one-element list of
    that record over the stored users, leaving the store as the failed block
    left it only when the medium refuses this write as well. *)
Theorem registerUser_never_throws (m : Medium) (uuid uuid' : string) (now now' : Z)
    (userData : Registration) (s : LocalStorage) :
  ∃ u s',
    registerUser m uuid uuid' now now' userData s = (Returned u, s') ∧
    match registerUser_try m uuid now userData (snd (initializeStorage m s)) with
    | (Returned a, s1) => u = a ∧ s' = s1
    | (Thrown _, s1) =>
        u = mkUser uuid' (name userData) (email userData) (faceDescriptor userData) now' ∧
        s' = if online m && accepts m (WUsers [u])
             then mkStorage (Holds [u]) (attendance_item s1)
             else s1
    end.
Proof.
  destruct (initializeStorage_kept m s) as (s0 & Hs0 & _).
  unfold registerUser. unfold bind at 1. rewrite Hs0. simpl.
  unfold try_catch at 1.
  destruct (registerUser_try m uuid now userData s0) as [[a | e] s1].
  - by eexists _, _.
  - eexists _, _. split; [| split; reflexivity].
    unfold registerUser_catch, bind, try_catch, setItem_users, ret.
    by destruct (online m && accepts m _).
Qed.

End ServiceProperties.

(** ** Further properties of the attendance service *)

Module ServiceLaws.
Import Storage Float64 FaceRecognitionMock AttendanceService ServiceProperties.
Local Open Scope js_scope.

Lemma works_readable (m : Medium) (s : LocalStorage) : works m → readable m s.
Proof. intros [Hon Hacc]. split; [done | by left]. Qed.

(** *** [initializeStorage] *)

(** X1: [initializeStorage] never throws, on any medium, whether a key is
    unset, holds a text that does not parse, or holds an array.  It leaves a
    key that holds an array as it is, so the users and the records that can
    be read are the same before and after; running it a second time on the
    same medium changes nothing more; and on a medium that works a key that
    was unset or did not parse holds the empty array afterwards. *)
Theorem initializeStorage_safe (m : Medium) (s : LocalStorage) :
  ∃ s0,
    initializeStorage m s = (Returned tt, s0) ∧
    identities s0 = identities s ∧ events s0 = events s ∧
    (∀ us, users_item s = Holds us → users_item s0 = Holds us) ∧
    (∀ rs, attendance_item s = Holds rs → attendance_item s0 = Holds rs) ∧
    initializeStorage m s0 = (Returned tt, s0) ∧
    (works m →
     (users_item s = Absent ∨ users_item s = Garbled → users_item s0 = Holds []) ∧
     (attendance_item s = Absent ∨ attendance_item s = Garbled →
      attendance_item s0 = Holds [])).
Proof.
  destruct (initializeStorage_kept m s) as (s0 & Hs0 & Ku & Kr).
  exists s0. split_and!.
  - done.
  - unfold identities. by apply item_kept_list.
  - unfold events. by apply item_kept_list.
  - intros us Hus. rewrite Hus in Ku. destruct Ku as [-> | [_ [? | ?]]]; done.
  - intros rs Hrs. rewrite Hrs in Kr. destruct Kr as [-> | [_ [? | ?]]]; done.
  - clear Ku Kr. revert Hs0.
    destruct m as [on acc], s as [us rs].
    unfold initializeStorage, try_catch, bind, probe, getItem_users, getItem_attendance,
      setItem_users, setItem_attendance, JSON_parse, ret, throw; simpl.
    destruct on; simpl; [| by intros [= <-]].
    destruct (acc WProbe) eqn:Hp; simpl; [| by intros [= <-]].
    destruct (acc (WUsers [])) eqn:Hu, (acc (WAttendance [])) eqn:Ha;
      destruct us, rs; simpl; rewrite ?Hu, ?Ha; simpl; rewrite ?Hu, ?Ha; simpl;
      intros [= <-]; simpl; rewrite ?Hp, ?Hu, ?Ha; simpl; rewrite ?Hu, ?Ha; simpl;
      rewrite ?Hu, ?Ha; reflexivity.
  - intros Hw. rewrite initializeStorage_works in Hs0 by done. injection Hs0 as <-.
    split; (intros [H | H]; simpl; unfold identities, events; by rewrite H).
Qed.

Lemma initializeStorage_safe_witness :
  ∃ s0, initializeStorage healthy (mkStorage Garbled (Holds [bob_morning])) = (Returned tt, s0) ∧
        users_item s0 = Holds [] ∧ attendance_item s0 = Holds [bob_morning].
Proof.
  destruct (initializeStorage_safe healthy (mkStorage Garbled (Holds [bob_morning])))
    as (s0 & Hrun & _ & _ & _ & Hkeep & _ & Hw).
  exists s0. split_and!; [exact Hrun | | by apply Hkeep].
  apply Hw; [split; reflexivity | by right].
Defined.

(** *** Operations that only read *)

Lemma after_initializeStorage {A} (m : Medium) (c : Js A) (s : LocalStorage) :
  (∀ s', snd (c s') = s') →
  snd (bind (initializeStorage m) (λ _, c) s) = snd (initializeStorage m s).
Proof.
  intros Hc. destruct (initializeStorage_kept m s) as (s0 & Hs0 & _).
  unfold bind. rewrite Hs0. simpl. apply Hc.
Qed.

Lemma read_users_pure {B} (m : Medium) (f : list UserData → B) (s : LocalStorage) :
  snd (bind (getItem_users m) (λ item, bind (JSON_parse item) (λ users, ret (f users))) s) = s.
Proof.
  unfold bind, getItem_users, ret. destruct (online m); [| done].
  by destruct (users_item s).
Qed.

Lemma read_attendance_pure {B} (m : Medium) (f : list AttendanceRecord → B) (s : LocalStorage) :
  snd (bind (getItem_attendance m) (λ item, bind (JSON_parse item) (λ rs, ret (f rs))) s) = s.
Proof.
  unfold bind, getItem_attendance, ret. destruct (online m); [| done].
  by destruct (attendance_item s).
Qed.

(** X2: the four reading operations, [getUsersData], [checkAttendanceStatus],
    [getAttendanceRecords] and [getAllUsers], leave the store exactly as
    [initializeStorage] alone leaves it, on any medium and whether they return
    or throw; the users and the records that can be read are unchanged (the
    in-place [sort] works on the parsed copy, not on the store). *)
Theorem reading_never_writes (fround : Q → Q) (m : Medium) (now : Z) (userId : string)
    (s : LocalStorage) :
  snd (getUsersData fround m s) = snd (initializeStorage m s) ∧
  snd (checkAttendanceStatus m now userId s) = snd (initializeStorage m s) ∧
  snd (getAttendanceRecords m s) = snd (initializeStorage m s) ∧
  snd (getAllUsers m s) = snd (initializeStorage m s) ∧
  identities (snd (initializeStorage m s)) = identities s ∧
  events (snd (initializeStorage m s)) = events s.
Proof.
  split_and!.
  - unfold getUsersData. apply after_initializeStorage. intros s'.
    unfold bind, getItem_users, ret. destruct (online m); [| done].
    destruct (users_item s') as [| | us]; simpl; try done.
    by destruct (length us =? 0)%nat.
  - unfold checkAttendanceStatus. apply after_initializeStorage. intros s'.
    apply (read_attendance_pure m
             (λ attendanceRecords,
                mkStatus
                  (bool_decide (is_Some (list_find (λ record, marked_on userId (date_of now) record = true)
                                                   attendanceRecords)))
                  (match (if (0 <? length (filter (λ record, r_userId record = userId) attendanceRecords))%nat
                          then Array_sort newest_first
                                 (filter (λ record, r_userId record = userId) attendanceRecords) !! 0%nat
                          else None) with
                   | Some r => Some (r_timestamp r)
                   | None => None
                   end))).
  - unfold getAttendanceRecords. apply after_initializeStorage. intros s'.
    apply (read_attendance_pure m (Array_sort newest_first)).
  - unfold getAllUsers. apply after_initializeStorage. intros s'.
    apply (read_users_pure m
             (fmap (λ user, mkSummary (u_id user) (u_name user) (u_email user)
                                      (u_registeredAt user)))).
  - destruct (initializeStorage_kept m s) as (s0 & -> & Ku & _).
    unfold identities. by apply item_kept_list.
  - destruct (initializeStorage_kept m s) as (s0 & -> & _ & Kr).
    unfold events. by apply item_kept_list.
Qed.

(** *** Who writes which key *)

Section one_key.
Context (I : LocalStorage → Prop).

Lemma keeps_getItem_users_any (m : Medium) : keeps I (getItem_users m) (λ _, True).
Proof. intros s Hs. unfold getItem_users. by destruct (online m). Qed.

Lemma keeps_getItem_attendance_any (m : Medium) : keeps I (getItem_attendance m) (λ _, True).
Proof. intros s Hs. unfold getItem_attendance. by destruct (online m). Qed.

Lemma keeps_setItem_users_any (m : Medium) (v : list UserData) :
  (∀ s, I s → I (mkStorage (Holds v) (attendance_item s))) →
  keeps I (setItem_users m v) (λ _, True).
Proof.
  intros HI s Hs. unfold setItem_users.
  destruct (online m && accepts m (WUsers v)); [split; auto | done].
Qed.

Lemma keeps_setItem_attendance_any (m : Medium) (v : list AttendanceRecord) :
  (∀ s, I s → I (mkStorage (users_item s) (Holds v))) →
  keeps I (setItem_attendance m v) (λ _, True).
Proof.
  intros HI s Hs. unfold setItem_attendance.
  destruct (online m && accepts m (WAttendance v)); [split; auto | done].
Qed.

Lemma keeps_initializeStorage_any (m : Medium) :
  (∀ s s', identities s' = identities s → events s' = events s → I s → I s') →
  keeps I (initializeStorage m) (λ _, True).
Proof.
  intros HI s Hs. destruct (initializeStorage_kept m s) as (s0 & -> & Ku & Kr).
  split; [| done]. apply (HI s); [| | done].
  - unfold identities. by apply item_kept_list.
  - unfold events. by apply item_kept_list.
Qed.
End one_key.

Lemma registerUser_keeps_events (m : Medium) (uuid uuid' : string) (now now' : Z)
    (userData : Registration) (rs : list AttendanceRecord) :
  keeps (λ s, events s = rs) (registerUser m uuid uuid' now now' userData) (λ _, True).
Proof.
  assert (Hset : ∀ v, keeps (λ s, events s = rs) (setItem_users m v) (λ _, True)).
  { intros v. apply keeps_setItem_users_any. by intros [us item]. }
  unfold registerUser.
  eapply keeps_bind; [apply keeps_initializeStorage_any; congruence | intros _ _].
  apply keeps_try_catch.
  - unfold registerUser_try.
    eapply (keeps_bind _ _ _ (λ _, True)).
    + apply keeps_try_catch.
      * eapply keeps_bind; [apply keeps_getItem_users_any | intros item _].
        by apply keeps_JSON_parse.
      * intros _. eapply keeps_bind; [apply Hset | intros _ _; by apply keeps_ret].
    + intros users _.
      destruct (list_find _ users) as [[i existingUser] |];
        (eapply keeps_bind; [apply Hset | intros _ _; by apply keeps_ret]).
  - intros _. unfold registerUser_catch.
    eapply keeps_bind; [| intros _ _; by apply keeps_ret].
    apply keeps_try_catch; [apply Hset | intros _; by apply keeps_ret].
Qed.

Lemma markAttendance_keeps_identities (m : Medium) (uuid : string) (now now' : Z)
    (userId : string) (us : list UserData) :
  keeps (λ s, identities s = us) (markAttendance m uuid now now' userId) (λ _, True).
Proof.
  unfold markAttendance.
  eapply keeps_bind; [apply keeps_initializeStorage_any; congruence | intros _ _].
  eapply keeps_bind; [apply keeps_getItem_users_any | intros uitem _].
  eapply keeps_bind; [by apply (keeps_JSON_parse _ _ (λ _, True)) | intros users _].
  eapply keeps_bind; [apply keeps_getItem_attendance_any | intros aitem _].
  eapply keeps_bind; [by apply (keeps_JSON_parse _ _ (λ _, True)) | intros records _].
  destruct (list_find _ users) as [[i user] |]; [| apply keeps_throw].
  destruct (existsb _ records); [by apply keeps_ret |].
  eapply keeps_bind; [| intros _ _; by apply keeps_ret].
  apply keeps_setItem_attendance_any. by intros [item rs].
Qed.

Lemma markAttendance_keeps_ledger (m : Medium) (uuid : string) (now now' : Z) (userId : string) :
  keeps (λ s, ledger_unique (events s)) (markAttendance m uuid now now' userId) (λ _, True).
Proof.
  unfold markAttendance.
  eapply keeps_bind; [apply keeps_initializeStorage_any; by intros ? ? _ -> | intros _ _].
  eapply keeps_bind; [apply keeps_getItem_users_any | intros uitem _].
  eapply keeps_bind; [by apply (keeps_JSON_parse _ _ (λ _, True)) | intros users _].
  eapply (keeps_bind _ _ _ (λ item, ledger_unique (slot_list item))).
  { intros s Hs. unfold getItem_attendance. by destruct (online m). }
  intros aitem Ha.
  eapply keeps_bind; [apply (keeps_JSON_parse _ _ ledger_unique Ha) | intros records Hr].
  destruct (list_find _ users) as [[i user] |] eqn:Hfind; [| apply keeps_throw].
  apply list_find_Some in Hfind as (_ & Hid & _).
  destruct (existsb _ records) eqn:Hex; [by apply keeps_ret |].
  eapply keeps_bind; [| intros _ _; by apply keeps_ret].
  apply keeps_setItem_attendance_any. intros [item rs] _.
  change (ledger_unique (records ++ [mkRecord uuid (u_id user) (u_name user) now' (date_of now)])).
  apply append_new_key; [done |].
  eapply Forall_impl; [apply (existsb_marked_on_false _ _ _ Hex) |].
  simpl. intros r Hne [= Hu Hd]. apply Hne. split; congruence.
Qed.

Lemma keeps_final {A} (I : LocalStorage → Prop) (c : Js A) (Q : A → Prop) (s : LocalStorage) :
  keeps I c Q → I s → I (snd (c s)).
Proof.
  intros Hc Hs. specialize (Hc s Hs). destruct (c s) as [[a | e] s']; [apply Hc | done].
Qed.

(** X3: each store has one writer.  [registerUser] never changes the
    attendance records and [markAttendance] never changes the users, on any
    medium and on every path, the fallback path of [registerUser] and the
    throwing paths of [markAttendance] included. *)
Theorem one_writer_per_key (m : Medium) (uuid uuid' : string) (now now' : Z)
    (userData : Registration) (userId : string) (s : LocalStorage) :
  events (snd (registerUser m uuid uuid' now now' userData s)) = events s ∧
  identities (snd (markAttendance m uuid now now' userId s)) = identities s.
Proof.
  split.
  - by apply (keeps_final (λ s', events s' = events s) _ _ s
                (registerUser_keeps_events m uuid uuid' now now' userData (events s))).
  - by apply (keeps_final (λ s', identities s' = identities s) _ _ s
                (markAttendance_keeps_identities m uuid now now' userId (identities s))).
Qed.

(** *** Registration and the other users *)

Lemma unique_key_inj {A K} `{EqDecision K} (f : A → K) (l : list A) (x y : A) :
  NoDup (f <$> l) → x ∈ l → y ∈ l → f y = f x → y = x.
Proof.
  intros Hnd Hx Hy Hf.
  assert (Hin : y ∈ filter (λ z, f z = f x) l) by (by apply list_elem_of_filter).
  rewrite (filter_unique_key f l x Hnd Hx) in Hin.
  by apply list_elem_of_singleton in Hin.
Qed.

(** X4: on a medium that works, [registerUser] removes nobody.  The store
    holds as many users as before, or one more; every stored user with another
    email is still stored, unchanged and at the same position; every id that
    was stored is still stored; and if the ids were pairwise different and
    the generated uuid is not among them, the ids are still pairwise
    different. *)
Theorem registerUser_keeps_others (m : Medium) (uuid uuid' : string) (now now' : Z)
    (userData : Registration) (s : LocalStorage) :
  works m →
  let s' := snd (registerUser m uuid uuid' now now' userData s) in
  (length (identities s') = length (identities s) ∨
   length (identities s') = S (length (identities s))) ∧
  (∀ i u, identities s !! i = Some u → u_email u ≠ email userData →
          identities s' !! i = Some u) ∧
  (∀ u, u ∈ identities s → u_id u ∈ u_id <$> identities s') ∧
  (NoDup (u_id <$> identities s) → uuid ∉ u_id <$> identities s →
   NoDup (u_id <$> identities s')).
Proof.
  intros Hw s'. subst s'. rewrite registerUser_works by done.
  destruct (list_find _ (identities s)) as [[i existingUser] |] eqn:Hfind; simpl.
  - apply list_find_Some in Hfind as (Hi & Hmail & _).
    rewrite identities_Holds.
    assert (Hids : u_id <$> <[i := mkUser (u_id existingUser) (name userData) (u_email existingUser)
                                      (faceDescriptor userData) now]> (identities s)
                   = u_id <$> identities s)
      by (by apply (insert_same_key u_id (identities s) i existingUser)).
    split_and!.
    + left. apply length_insert.
    + intros j u Hj Hne. rewrite list_lookup_insert_ne; [done |].
      intros ->. rewrite Hi in Hj. injection Hj as ->. done.
    + intros u Hu. rewrite Hids. by apply list_elem_of_fmap_2.
    + intros Hnd _. by rewrite Hids.
  - rewrite identities_Holds. split_and!.
    + right. rewrite length_app. simpl. lia.
    + intros j u Hj _. by apply lookup_app_l_Some.
    + intros u Hu. rewrite fmap_app. apply elem_of_app. left. by apply list_elem_of_fmap_2.
    + intros Hnd Hfresh. apply append_new_key; [done |].
      apply Forall_forall. intros u Hu Hid. apply Hfresh. simpl in Hid. rewrite <- Hid.
      by apply list_elem_of_fmap_2.
Qed.

Lemma registerUser_keeps_others_witness :
  identities (snd (registerUser healthy "u-7" "u-8" t_morning t_morning alice bob_store))
    !! 0%nat = Some bob.
Proof.
  apply (registerUser_keeps_others healthy "u-7" "u-8" t_morning t_morning alice bob_store).
  - split; reflexivity.
  - reflexivity.
  - discriminate.
Defined.

Lemma checkAttendanceStatus_same_events (m : Medium) (t : Z) (userId : string)
    (s1 s2 : LocalStorage) :
  readable m s1 → readable m s2 → events s1 = events s2 →
  fst (checkAttendanceStatus m t userId s1) = fst (checkAttendanceStatus m t userId s2).
Proof.
  intros H1 H2 He.
  destruct (checkAttendanceStatus_readable m t userId s1 H1) as (s1' & -> & _).
  destruct (checkAttendanceStatus_readable m t userId s2 H2) as (s2' & -> & _).
  by rewrite He.
Qed.

Lemma getAttendanceRecords_same_events (m : Medium) (s1 s2 : LocalStorage) :
  readable m s1 → readable m s2 → events s1 = events s2 →
  fst (getAttendanceRecords m s1) = fst (getAttendanceRecords m s2).
Proof.
  intros H1 H2 He.
  destruct (getAttendanceRecords_readable m s1 H1) as (s1' & -> & _).
  destruct (getAttendanceRecords_readable m s2 H2) as (s2' & -> & _).
  by rewrite He.
Qed.

(** X5: registering again does not touch anyone's attendance.  On a medium
    that works, with unique emails, registering with the email of a stored
    user returns a record with that user's id, and afterwards
    [checkAttendanceStatus] answers for every user and time, and
    [getAttendanceRecords] returns, what they did before: the stored records
    keep the name they were marked with. *)
Theorem reregistration_keeps_attendance (m : Medium) (uuid uuid' : string) (now now' : Z)
    (userData : Registration) (u : UserData) (s : LocalStorage) :
  works m →
  emails_unique (identities s) →
  u ∈ identities s →
  u_email u = email userData →
  ∃ u' s',
    registerUser m uuid uuid' now now' userData s = (Returned u', s') ∧
    u_id u' = u_id u ∧
    events s' = events s ∧
    (∀ t userId, fst (checkAttendanceStatus m t userId s') = fst (checkAttendanceStatus m t userId s)) ∧
    fst (getAttendanceRecords m s') = fst (getAttendanceRecords m s).
Proof.
  intros Hw Huniq Hu Hmail.
  rewrite registerUser_works by done.
  destruct (list_find_elem_of (λ user, u_email user = email userData) (identities s) u Hu Hmail)
    as [[i existingUser] Hfind].
  rewrite Hfind. apply list_find_Some in Hfind as (Hi & Hmail' & _).
  assert (existingUser = u) as ->.
  { apply (unique_key_inj u_email (identities s)); [done | done | | congruence].
    by eapply list_elem_of_lookup_2. }
  eexists _, _. split_and!; [done | done | done | |].
  - intros t userId. apply checkAttendanceStatus_same_events; by try apply works_readable.
  - apply getAttendanceRecords_same_events; by try apply works_readable.
Qed.

Lemma reregistration_keeps_attendance_witness :
  ∃ u' s',
    registerUser healthy "u-7" "u-8" t_evening t_evening
      (mkRegistration "Robert" "bob@x.com" [0; 1; 0]%Q) two_day_store = (Returned u', s') ∧
    u_id u' = "u-1" ∧ events s' = [bob_morning; bob_next_day].
Proof.
  destruct (reregistration_keeps_attendance healthy "u-7" "u-8" t_evening t_evening
              (mkRegistration "Robert" "bob@x.com" [0; 1; 0]%Q) bob two_day_store)
    as (u' & s' & Hrun & Hid & Hev & _).
  - split; reflexivity.
  - apply NoDup_singleton.
  - left.
  - reflexivity.
  - by exists u', s'.
Defined.

(** *** Marking on several days *)

Lemma events_Holds_any (item : Slot (list UserData)) (rs : list AttendanceRecord) :
  events (mkStorage item (Holds rs)) = rs.
Proof. reflexivity. Qed.

Lemma markAttendance_works (m : Medium) (uuid : string) (now now' : Z) (userId : string)
    (u : UserData) (s : LocalStorage) :
  works m → u ∈ identities s → u_id u = userId →
  ∃ e s1,
    markAttendance m uuid now now' userId s = (Returned (Some e), s1) ∧
    identities s1 = identities s ∧
    r_userId e = userId ∧ r_date e = date_of now ∧
    e ∈ events s1 ∧
    (∀ r, r ∈ events s → r ∈ events s1).
Proof.
  intros Hw Hu Hid. pose proof Hw as [Hon Hacc].
  destruct (markAttendance_readable m uuid now now' userId s (works_readable m s Hw))
    as (s0 & Hs0 & He & ->).
  rewrite initializeStorage_works in Hs0 by done. injection Hs0 as <-.
  destruct (list_find_elem_of (λ u, u_id u = userId) (identities s) u Hu Hid)
    as [[i user] Hfind].
  rewrite Hfind. apply list_find_Some in Hfind as (_ & Hid' & _).
  destruct (existsb _ (events s)) eqn:Hex.
  - destruct (existsb_marked_on_true _ _ _ Hex) as (j & e & -> & Hin & Hue & Hde).
    exists e, (initialized s). by split_and!.
  - rewrite mark_write by done. rewrite Hacc.
    eexists _, _. split_and!; [done | done | done | done | |].
    + rewrite events_Holds_any. apply elem_of_app. right. left.
    + intros r Hr. rewrite events_Holds_any. apply elem_of_app. by left.
Qed.

(** X6: marks on two different calendar dates make two records.  On a medium
    that works and for a stored user, a call at a time of one date and a call
    at a time of another date both return a record, the two records are
    different, each carries the date of its call, and both are stored
    afterwards. *)
Theorem marks_on_distinct_days (m : Medium) (uuid1 uuid2 : string) (t1 t1' t2 t2' : Z)
    (userId : string) (u : UserData) (s : LocalStorage) :
  works m → u ∈ identities s → u_id u = userId →
  date_of t1 ≠ date_of t2 →
  ∃ e1 s1 e2 s2,
    markAttendance m uuid1 t1 t1' userId s = (Returned (Some e1), s1) ∧
    markAttendance m uuid2 t2 t2' userId s1 = (Returned (Some e2), s2) ∧
    e1 ≠ e2 ∧
    r_date e1 = date_of t1 ∧ r_date e2 = date_of t2 ∧
    e1 ∈ events s2 ∧ e2 ∈ events s2.
Proof.
  intros Hw Hu Hid Hdays.
  destruct (markAttendance_works m uuid1 t1 t1' userId u s Hw Hu Hid)
    as (e1 & s1 & Hrun1 & Hids1 & _ & Hd1 & Hin1 & _).
  rewrite <- Hids1 in Hu.
  destruct (markAttendance_works m uuid2 t2 t2' userId u s1 Hw Hu Hid)
    as (e2 & s2 & Hrun2 & _ & _ & Hd2 & Hin2 & Hmono).
  exists e1, s1, e2, s2. split_and!; try done; [| by apply Hmono].
  intros ->. congruence.
Qed.

Lemma marks_on_distinct_days_witness :
  ∃ e1 s1 e2 s2,
    markAttendance healthy "r-1" t_morning t_morning "u-1" bob_store = (Returned (Some e1), s1) ∧
    markAttendance healthy "r-3" t_next_day t_next_day "u-1" s1 = (Returned (Some e2), s2) ∧
    e1 ≠ e2 ∧ e1 ∈ events s2 ∧ e2 ∈ events s2.
Proof.
  destruct (marks_on_distinct_days healthy "r-1" "r-3" t_morning t_morning t_next_day t_next_day
              "u-1" bob bob_store) as (e1 & s1 & e2 & s2 & H1 & H2 & Hne & _ & _ & Hin1 & Hin2).
  - split; reflexivity.
  - left.
  - reflexivity.
  - vm_compute. discriminate.
  - by exists e1, s1, e2, s2.
Defined.

(** *** The order of [getAttendanceRecords] *)

Lemma sort_insert_oldest (x : AttendanceRecord) (l : list AttendanceRecord) :
  Forall (λ y, r_timestamp x < r_timestamp y) l →
  sort_insert newest_first x l = l ++ [x].
Proof.
  induction 1 as [| y l Hy _ IH]; simpl; [done |].
  unfold newest_first at 1.
  destruct (Z.leb_spec (r_timestamp y - r_timestamp x) 0); [lia |].
  by rewrite IH.
Qed.

Lemma Array_sort_chronological (l : list AttendanceRecord) :
  StronglySorted (λ a b, r_timestamp a < r_timestamp b) l →
  Array_sort newest_first l = reverse l.
Proof.
  induction 1 as [| x l _ IH Hx]; simpl; [done |].
  rewrite IH, reverse_cons. apply sort_insert_oldest. by apply Forall_reverse.
Qed.

Lemma Array_sort_sorted (l : list AttendanceRecord) :
  StronglySorted newer_or_same l → Array_sort newest_first l = l.
Proof.
  induction 1 as [| x l _ IH Hx]; simpl; [done |].
  rewrite IH. destruct Hx as [| y l' Hy _]; simpl; [done |].
  unfold newest_first, newer_or_same in *.
  destruct (Z.leb_spec (r_timestamp y - r_timestamp x) 0); [done | lia].
Qed.

(** X7: a ledger written by a clock that moves forward comes back reversed.
    On a store that can be read, if the stored records have strictly
    increasing timestamps in stored order, [getAttendanceRecords] returns
    them in exactly the reverse of the stored order. *)
Theorem getAttendanceRecords_reverses_chronological (m : Medium) (s : LocalStorage) :
  readable m s →
  StronglySorted (λ a b, r_timestamp a < r_timestamp b) (events s) →
  fst (getAttendanceRecords m s) = Returned (reverse (events s)).
Proof.
  intros Hr Hs. destruct (getAttendanceRecords_readable m s Hr) as (s0 & -> & _).
  simpl. by rewrite Array_sort_chronological.
Qed.

Lemma getAttendanceRecords_reverses_chronological_witness :
  fst (getAttendanceRecords healthy two_day_store) = Returned [bob_next_day; bob_morning].
Proof.
  apply (getAttendanceRecords_reverses_chronological healthy two_day_store).
  - split; [reflexivity | left; reflexivity].
  - repeat constructor.
Defined.

(** X8: the sort does not reorder what is already in order.  On a store that
    can be read, if the stored records are newest first, ties allowed,
    [getAttendanceRecords] returns them in stored order, so records with equal
    timestamps keep their places; and sorting the returned list once more
    gives the same list. *)
Theorem getAttendanceRecords_keeps_sorted (m : Medium) (s : LocalStorage) :
  readable m s →
  (StronglySorted newer_or_same (events s) →
   fst (getAttendanceRecords m s) = Returned (events s)) ∧
  (∀ records, fst (getAttendanceRecords m s) = Returned records →
              Array_sort newest_first records = records).
Proof.
  intros Hr. destruct (getAttendanceRecords_readable m s Hr) as (s0 & -> & _). simpl.
  split.
  - intros Hs. by rewrite Array_sort_sorted.
  - intros records [= <-]. apply Array_sort_sorted, Array_sort_newest_first.
Qed.

Lemma getAttendanceRecords_keeps_sorted_witness :
  fst (getAttendanceRecords healthy
         (mkStorage (Holds [bob])
            (Holds [bob_next_day; bob_morning; mkRecord "r-9" "u-9" "Eve" t_morning 19723])))
  = Returned [bob_next_day; bob_morning; mkRecord "r-9" "u-9" "Eve" t_morning 19723].
Proof.
  apply (getAttendanceRecords_keeps_sorted healthy
           (mkStorage (Holds [bob])
              (Holds [bob_next_day; bob_morning; mkRecord "r-9" "u-9" "Eve" t_morning 19723]))).
  - split; [reflexivity | left; reflexivity].
  - unfold newer_or_same. repeat constructor; vm_compute; discriminate.
Defined.

(** *** From the stored users to a matched label *)

Lemma getUsersData_readable (fround : Q → Q) (m : Medium) (s : LocalStorage) :
  readable m s →
  ∃ s0,
    getUsersData fround m s
    = (Returned ((λ user, new_MockLabeledFaceDescriptors (u_id user)
                            [fround <$> u_faceDescriptor user]) <$> identities s), s0) ∧
    identities s0 = identities s ∧ events s0 = events s ∧ readable m s0.
Proof.
  intros Hr. pose proof Hr as [Hon _].
  destruct (initializeStorage_readable m s Hr) as (s0 & Hs0 & Hi & He & Hgu & Hgr).
  exists s0. split_and!; [| done | done | split; auto].
  unfold getUsersData. unfold bind at 1. rewrite Hs0.
  rewrite read_users by done. rewrite Hi.
  by destruct (identities s).
Qed.

(** X9: a matched label is always the id of a stored user.  On a store that
    can be read and holds at least one user, [getUsersData] returns one
    candidate per stored user, labelled with the user's id, and for every
    query and every draw of [Math.random()] in [0,1) [mockFindBestMatch] on
    these candidates returns the id of a stored user; [markAttendance] called
    with that label then never throws "User not found". *)
Theorem matched_label_is_registered (fround : Q → Q) (m : Medium) (random : Double)
    (query : list Q) (s : LocalStorage) :
  readable m s → identities s ≠ [] →
  (0 <= value random)%Q → (value random < 1)%Q →
  ∃ candidates s0 u,
    getUsersData fround m s = (Returned candidates, s0) ∧
    lfd_label <$> candidates = u_id <$> identities s ∧
    u ∈ identities s ∧
    mockFindBestMatch random query (Some candidates) = Returned (mkMatch (u_id u) (3 # 10)) ∧
    (∀ uuid t t',
        fst (markAttendance m uuid t t' (u_id u) s0) ≠ Thrown (JsError "User not found")).
Proof.
  intros Hr Hne Hlo Hhi.
  destruct (getUsersData_readable fround m s Hr) as (s0 & Hrun & Hi & _ & Hr0).
  set (candidates := (λ user, new_MockLabeledFaceDescriptors (u_id user)
                                [fround <$> u_faceDescriptor user]) <$> identities s) in *.
  assert (Hcne : candidates ≠ []) by (subst candidates; by destruct (identities s)).
  destruct (MatcherProperties.mockFindBestMatch_selects random query candidates Hcne Hlo Hhi)
    as (c & Hc & Hmatch).
  apply list_elem_of_lookup_2 in Hc.
  subst candidates. apply list_elem_of_fmap in Hc as (u & -> & Hu).
  eexists _, s0, u. split_and!; [exact Hrun | | done | exact Hmatch |].
  - rewrite <- list_fmap_compose. done.
  - intros uuid t t'.
    destruct (markAttendance_readable m uuid t t' (u_id u) s0 Hr0) as (s1 & _ & _ & ->).
    rewrite Hi.
    destruct (list_find_elem_of (λ u', u_id u' = u_id u) (identities s) u Hu eq_refl)
      as [[i user] ->].
    destruct (existsb _ (events s0)); [done |].
    rewrite mark_write by apply Hr. by destruct (accepts m _).
Qed.

Lemma matched_label_is_registered_witness :
  ∃ candidates s0 u,
    getUsersData (λ q, q) healthy bob_store = (Returned candidates, s0) ∧
    u ∈ identities bob_store ∧
    mockFindBestMatch one_half [0; 0; 0]%Q (Some candidates) = Returned (mkMatch (u_id u) (3 # 10)).
Proof.
  destruct (matched_label_is_registered (λ q, q) healthy one_half [0; 0; 0]%Q bob_store)
    as (candidates & s0 & u & Hrun & _ & Hu & Hmatch & _).
  - split; [reflexivity | left; reflexivity].
  - discriminate.
  - done.
  - reflexivity.
  - by exists candidates, s0, u.
Defined.

End ServiceLaws.

(** ** Properties of the components *)

Module ComponentProperties.
Import Storage Float64 FaceRecognitionMock AttendanceService FaceDetectionMock Components.
Import ServiceProperties ServiceLaws.
Local Open Scope js_scope.

Lemma truthy_true (s : string) : truthy s = true ↔ s ≠ "".
Proof.
  unfold truthy. rewrite negb_true_iff. split.
  - intros Hne ->. by rewrite String.eqb_refl in Hne.
  - intros Hne. by apply String.eqb_neq.
Qed.

Lemma truthy_false (s : string) : truthy s = false ↔ s = "".
Proof. unfold truthy. rewrite negb_false_iff. apply String.eqb_eq. Qed.

(** *** [UserRegistration] *)

Lemma registerUser_returns (m : Medium) (uuid uuid' : string) (now now' : Z)
    (userData : Registration) (s : LocalStorage) :
  ∃ u s', registerUser m uuid uuid' now now' userData s = (Returned u, s').
Proof.
  destruct (initializeStorage_kept m s) as (s0 & Hs0 & _).
  unfold registerUser. unfold bind at 1. rewrite Hs0.
  unfold try_catch at 1.
  destruct (registerUser_try m uuid now userData s0) as [[a | e] s1]; [by eexists _, _ |].
  unfold registerUser_catch, bind, try_catch, setItem_users, ret.
  destruct (online m && accepts m _); by eexists _, _.
Qed.

(** X10: the registration form never reports a failed registration.  With
    an empty name or an empty email [handleRegister] sets the message "Please
    provide your name and email." and does not touch the store, not even to
    initialize it.  With both filled in it always ends with [isRegistered]
    set and the error cell as it was, on any medium, an offline one
    included: the message "Failed to register. Please try again." is never
    shown.  The store is then the one [registerUser] leaves, called with the
    captured descriptor or, without one, with 128 entries of 0.5. *)
Theorem handleRegister_never_fails (m : Medium) (uuid uuid' : string) (now now' : Z)
    (st : RegistrationState) (s : LocalStorage) :
  (reg_name st = "" ∨ reg_email st = "" →
   handleRegister m uuid uuid' now now' st s
   = (Returned (setError (Some "Please provide your name and email.") st), s)) ∧
  (reg_name st ≠ "" → reg_email st ≠ "" →
   handleRegister m uuid uuid' now now' st s
   = (Returned (setIsRegistered true st),
      snd (registerUser m uuid uuid' now now'
             (mkRegistration (reg_name st) (reg_email st)
                (default (replicate 128 (1 # 2)) (reg_capturedDescriptor st))) s))).
Proof.
  unfold handleRegister. split.
  - intros Hempty.
    assert (negb (truthy (reg_name st)) || negb (truthy (reg_email st)) = true) as ->; [| done].
    apply orb_true_iff. rewrite !negb_true_iff, !truthy_false. done.
  - intros Hn He.
    apply truthy_true in Hn, He. rewrite Hn, He. cbn [negb orb].
    unfold try_catch, bind, default_descriptor.
    destruct (registerUser_returns m uuid uuid' now now'
                (mkRegistration (reg_name st) (reg_email st)
                   (default (replicate 128 (1 # 2)) (reg_capturedDescriptor st))) s)
      as (u & s' & ->).
    done.
Qed.

Lemma handleRegister_never_fails_witness :
  handleRegister offline "u-7" "u-8" t_morning t_evening
    (mkRegistrationState "Alice" "a@x.com" false false false None false None true false)
    bob_store
  = (Returned (setIsRegistered true
                 (mkRegistrationState "Alice" "a@x.com" false false false None false None
                    true false)),
     bob_store).
Proof.
  apply (handleRegister_never_fails offline "u-7" "u-8" t_morning t_evening
           (mkRegistrationState "Alice" "a@x.com" false false false None false None true false)
           bob_store); discriminate.
Defined.

(** *** [AttendanceMarking]: marking *)

Lemma marked_today_iff (userId : string) (today : Z) (records : list AttendanceRecord) :
  bool_decide (is_Some (list_find (λ record, marked_on userId today record = true) records)) = true
  ↔ ∃ r, r ∈ records ∧ r_userId r = userId ∧ r_date r = today.
Proof.
  rewrite bool_decide_eq_true. split.
  - intros [[i r] Hfind]. apply list_find_Some in Hfind as (Hi & Hm & _).
    apply marked_on_spec in Hm as [? ?].
    exists r. split_and!; [by eapply list_elem_of_lookup_2 | done | done].
  - intros (r & Hin & Hu & Hd).
    eapply list_find_elem_of; [exact Hin |]. by apply marked_on_spec.
Qed.

Lemma checkAttendanceStatus_state (m : Medium) (now : Z) (userId : string) (s : LocalStorage) :
  readable m s →
  ∃ status s0,
    checkAttendanceStatus m now userId s = (Returned status, s0) ∧
    (markedToday status = true
     ↔ ∃ r, r ∈ events s ∧ r_userId r = userId ∧ r_date r = date_of now) ∧
    identities s0 = identities s ∧ events s0 = events s ∧ readable m s0.
Proof.
  intros Hr. pose proof Hr as [Hon _].
  destruct (initializeStorage_readable m s Hr) as (s0 & Hs0 & Hi & He & Hgu & Hgr).
  eexists _, s0. split_and!; [| | done | done | split; auto].
  - unfold checkAttendanceStatus. unfold bind at 1. rewrite Hs0.
    rewrite read_attendance by done. rewrite He. reflexivity.
  - apply marked_today_iff.
Qed.

Lemma checkAttendanceStatus_keeps_any (I : LocalStorage → Prop) (m : Medium) (now : Z)
    (userId : string) :
  (∀ s s', identities s' = identities s → events s' = events s → I s → I s') →
  keeps I (checkAttendanceStatus m now userId) (λ _, True).
Proof.
  intros HI. unfold checkAttendanceStatus.
  eapply keeps_bind; [by apply keeps_initializeStorage_any | intros _ _].
  eapply keeps_bind; [apply keeps_getItem_attendance_any | intros item _].
  eapply keeps_bind; [by apply (keeps_JSON_parse _ _ (λ _, True)) | intros records _].
  by apply keeps_ret.
Qed.

Lemma handleMarkAttendance_keeps (I : LocalStorage → Prop) (m : Medium) (uuid : string)
    (now now_today now_stamp : Z) (st : MarkingState) :
  (∀ userId, keeps I (checkAttendanceStatus m now userId) (λ _, True)) →
  (∀ userId, keeps I (markAttendance m uuid now_today now_stamp userId) (λ _, True)) →
  keeps I (handleMarkAttendance m uuid now now_today now_stamp st) (λ _, True).
Proof.
  intros Hcheck Hmark. unfold handleMarkAttendance.
  destruct (am_recognizedUser st) as [u |]; [| by apply keeps_ret].
  apply keeps_try_catch; [| intros _; by apply keeps_ret].
  eapply keeps_bind; [apply Hcheck | intros status _].
  destruct (markedToday status); [by apply keeps_ret |].
  eapply keeps_bind; [apply Hmark | intros _ _; by apply keeps_ret].
Qed.

(** X11: the "Mark Attendance" button is safe to press on any medium.
    [handleMarkAttendance] never throws, never changes the stored users, and
    a ledger with at most one record per user and date still has at most one
    record per user and date afterwards, however often the button is
    pressed and whatever the clock reads. *)
Theorem handleMarkAttendance_safe (m : Medium) (uuid : string) (now now_today now_stamp : Z)
    (st : MarkingState) (s : LocalStorage) :
  ∃ st' s',
    handleMarkAttendance m uuid now now_today now_stamp st s = (Returned st', s') ∧
    identities s' = identities s ∧
    (ledger_unique (events s) → ledger_unique (events s')).
Proof.
  assert (Hids : identities (snd (handleMarkAttendance m uuid now now_today now_stamp st s))
                 = identities s).
  { apply (keeps_final (λ s', identities s' = identities s) _ (λ _, True) s); [| done].
    apply handleMarkAttendance_keeps.
    - intros userId. apply checkAttendanceStatus_keeps_any. congruence.
    - intros userId. apply markAttendance_keeps_identities. }
  assert (Huniq : ledger_unique (events s) →
                  ledger_unique (events (snd (handleMarkAttendance m uuid now now_today
                                                now_stamp st s)))).
  { apply (keeps_final (λ s', ledger_unique (events s')) _ (λ _, True) s).
    apply handleMarkAttendance_keeps.
    - intros userId. apply checkAttendanceStatus_keeps_any. by intros ? ? _ ->.
    - intros userId. apply markAttendance_keeps_ledger. }
  destruct (handleMarkAttendance m uuid now now_today now_stamp st s) as [o s'] eqn:Hrun.
  simpl in Hids, Huniq.
  assert (∃ st', o = Returned st') as [st' ->]; [| by exists st', s'].
  revert Hrun. unfold handleMarkAttendance.
  destruct (am_recognizedUser st) as [u |]; [| intros [= <- _]; by eexists].
  unfold try_catch.
  destruct (bind _ _ s) as [[a | e] s1]; intros [= <- _]; by eexists.
Qed.

Lemma handleMarkAttendance_safe_witness :
  ledger_unique
    (events (snd (handleMarkAttendance healthy "r-2" t_evening t_evening t_evening
                    (mkMarkingState false false (Some (mkRecognized "u-1" "u-1")) None
                       false false true false (Some "u-1"))
                    (mkStorage (Holds [bob]) (Holds [bob_morning]))))).
Proof.
  destruct (handleMarkAttendance_safe healthy "r-2" t_evening t_evening t_evening
              (mkMarkingState false false (Some (mkRecognized "u-1" "u-1")) None
                 false false true false (Some "u-1"))
              (mkStorage (Holds [bob]) (Holds [bob_morning])))
    as (st' & s' & Hrun & _ & Huniq).
  rewrite Hrun. apply Huniq. apply NoDup_singleton.
Defined.

(** X12: what pressing "Mark Attendance" does on a store that can be read.
    If the recognized user already has a record dated today, nothing is
    written and the component shows "already marked".  If not, and no stored
    user has the recognized id, nothing is written and the component shows
    "Failed to mark attendance. Please try again." and stops processing.  If
    not, and the user is stored, the medium works and the clock stays on the
    same date, exactly one record is appended, with the generated id, the
    user's id, today's date and the time read, and the component shows
    "marked". *)
Theorem handleMarkAttendance_outcomes (m : Medium) (uuid : string) (now now_today now_stamp : Z)
    (u : RecognizedUser) (st : MarkingState) (s : LocalStorage) :
  readable m s → am_recognizedUser st = Some u →
  ∃ st' s',
    handleMarkAttendance m uuid now now_today now_stamp st s = (Returned st', s') ∧
    ((∃ r, r ∈ events s ∧ r_userId r = rec_id u ∧ r_date r = date_of now) →
       events s' = events s ∧
       am_attendanceMarked st' = true ∧ am_alreadyMarkedToday st' = true ∧
       am_error st' = am_error st) ∧
    (¬ (∃ r, r ∈ events s ∧ r_userId r = rec_id u ∧ r_date r = date_of now) →
     (∀ x, x ∈ identities s → u_id x ≠ rec_id u) →
       events s' = events s ∧
       am_error st' = Some "Failed to mark attendance. Please try again." ∧
       am_processingAttendance st' = false ∧
       am_attendanceMarked st' = am_attendanceMarked st) ∧
    (¬ (∃ r, r ∈ events s ∧ r_userId r = rec_id u ∧ r_date r = date_of now) →
     (∃ x, x ∈ identities s ∧ u_id x = rec_id u) →
     works m → date_of now_today = date_of now →
       ∃ e, events s' = events s ++ [e] ∧
            r_id e = uuid ∧ r_userId e = rec_id u ∧
            r_date e = date_of now ∧ r_timestamp e = now_stamp ∧
            am_attendanceMarked st' = true ∧ am_alreadyMarkedToday st' = false ∧
            am_error st' = am_error st).
Proof.
  intros Hr Hrec. pose proof Hr as [Hon _].
  destruct (checkAttendanceStatus_state m now (rec_id u) s Hr)
    as (status & s0 & Hcheck & Hiff & Hi & He & Hr0).
  unfold handleMarkAttendance. rewrite Hrec.
  unfold try_catch. unfold bind at 1. rewrite Hcheck.
  destruct (markedToday status) eqn:Hmarked.
  { eexists _, _. split; [reflexivity |]. split_and!.
    - intros _. by split_and!.
    - intros Hnot. destruct Hnot. by apply Hiff.
    - intros Hnot. destruct Hnot. by apply Hiff. }
  assert (Hnot : ¬ ∃ r, r ∈ events s ∧ r_userId r = rec_id u ∧ r_date r = date_of now).
  { intros Hex. apply Hiff in Hex. congruence. }
  unfold bind at 1.
  destruct (markAttendance_readable m uuid now_today now_stamp (rec_id u) s0 Hr0)
    as (s1 & _ & He1 & ->).
  rewrite Hi, He.
  destruct (list_find _ (identities s)) as [[i user] |] eqn:Hfind.
  - apply list_find_Some in Hfind as (Hlook & Hid & _).
    apply list_elem_of_lookup_2 in Hlook.
    destruct (existsb _ (events s)) eqn:Hex.
    + eexists _, _. split; [reflexivity |]. split_and!.
      * intros Hyes. done.
      * intros _ Hnone. by destruct (Hnone user).
      * intros _ _ _ Hday. destruct Hnot. rewrite Hday in Hex.
        destruct (existsb_marked_on_true _ _ _ Hex) as (j & e & _ & Hin & Hue & Hde).
        by exists e.
    + rewrite mark_write by done.
      destruct (accepts m _) eqn:Hacc.
      * eexists _, _. split; [reflexivity |]. split_and!.
        -- intros Hyes. done.
        -- intros _ Hnone. by destruct (Hnone user).
        -- intros _ _ _ Hday. eexists. rewrite events_Holds_any.
           split; [reflexivity |]. simpl. by rewrite Hday.
      * eexists _, _. split; [reflexivity |]. split_and!.
        -- intros Hyes. done.
        -- intros _ Hnone. by destruct (Hnone user).
        -- intros _ _ [_ Hall] _. rewrite Hall in Hacc. done.
  - apply list_find_None in Hfind.
    eexists _, _. split; [reflexivity |]. split_and!.
    + intros Hyes. done.
    + intros _ _. simpl. by rewrite He1, He.
    + intros _ (x & Hx & Hxid) _ _.
      by destruct (proj1 (Forall_forall _ _) Hfind x Hx).
Qed.

Lemma handleMarkAttendance_outcomes_witness :
  ∃ st' s',
    handleMarkAttendance healthy "r-2" t_evening t_evening t_evening
      (mkMarkingState false false (Some (mkRecognized "u-1" "u-1")) None
         false false true false (Some "u-1"))
      (mkStorage (Holds [bob]) (Holds [bob_morning])) = (Returned st', s') ∧
    events s' = [bob_morning] ∧ am_alreadyMarkedToday st' = true.
Proof.
  destruct (handleMarkAttendance_outcomes healthy "r-2" t_evening t_evening t_evening
              (mkRecognized "u-1" "u-1")
              (mkMarkingState false false (Some (mkRecognized "u-1" "u-1")) None
                 false false true false (Some "u-1"))
              (mkStorage (Holds [bob]) (Holds [bob_morning])))
    as (st' & s' & Hrun & Halready & _).
  - split; [reflexivity | left; reflexivity].
  - reflexivity.
  - exists st', s'. split; [exact Hrun |].
    destruct Halready as (Hev & _ & Hflag & _).
    + exists bob_morning. split; [left |]. split; reflexivity.
    + by split.
Defined.

(** *** [AttendanceMarking]: recognition *)

(** X13: the effect that follows a change of the recognized user never
    throws, on any medium.  For a newly recognized user it records the user's
    id as current and clears "attendance marked"; on a store that can be
    read it sets "already marked today" exactly when a record of that user
    dated today is stored, and when the status cannot be read it leaves that
    flag cleared. *)
Theorem onRecognizedUserChange_reflects_ledger (m : Medium) (now : Z) (u : RecognizedUser)
    (st : MarkingState) (s : LocalStorage) :
  am_recognizedUser st = Some u → Some (rec_id u) ≠ am_currentUserId st →
  ∃ st' s',
    onRecognizedUserChange m now st s = (Returned st', s') ∧
    am_currentUserId st' = Some (rec_id u) ∧
    am_attendanceMarked st' = false ∧
    am_recognizedUser st' = Some u ∧
    (readable m s →
     (am_alreadyMarkedToday st' = true
      ↔ ∃ r, r ∈ events s ∧ r_userId r = rec_id u ∧ r_date r = date_of now)) ∧
    (∀ e, fst (checkAttendanceStatus m now (rec_id u) s) = Thrown e →
          am_alreadyMarkedToday st' = false).
Proof.
  intros Hrec Hnew. unfold onRecognizedUserChange. rewrite Hrec.
  rewrite bool_decide_eq_true_2 by done.
  unfold try_catch, bind.
  destruct (checkAttendanceStatus m now (rec_id u) s) as [[status | e] s0] eqn:Hcheck.
  - eexists _, _. split; [reflexivity |]. split_and!; [done | done | done | | done].
    intros Hr. destruct (checkAttendanceStatus_state m now (rec_id u) s Hr)
      as (status' & s0' & Hcheck' & Hiff & _).
    rewrite Hcheck in Hcheck'. injection Hcheck' as <- <-. exact Hiff.
  - eexists _, _. split; [reflexivity |]. split_and!; [done | done | done | | done].
    intros Hr. destruct (checkAttendanceStatus_state m now (rec_id u) s Hr)
      as (status' & s0' & Hcheck' & _).
    rewrite Hcheck in Hcheck'. done.
Qed.

Lemma onRecognizedUserChange_reflects_ledger_witness :
  ∃ st' s',
    onRecognizedUserChange offline t_evening
      (mkMarkingState false false (Some (mkRecognized "u-1" "u-1")) None
         true true true false None)
      (mkStorage (Holds [bob]) (Holds [bob_morning])) = (Returned st', s') ∧
    am_alreadyMarkedToday st' = false.
Proof.
  destruct (onRecognizedUserChange_reflects_ledger offline t_evening (mkRecognized "u-1" "u-1")
              (mkMarkingState false false (Some (mkRecognized "u-1" "u-1")) None
                 true true true false None)
              (mkStorage (Holds [bob]) (Holds [bob_morning])))
    as (st' & s' & Hrun & _ & _ & _ & _ & Hthrown).
  - reflexivity.
  - discriminate.
  - exists st', s'. split; [exact Hrun |]. by apply (Hthrown DOMException).
Defined.

Lemma candidate_of_user (fround : Q → Q) (users : list UserData) (c : MockLabeledFaceDescriptors) :
  c ∈ (λ user, new_MockLabeledFaceDescriptors (u_id user) [fround <$> u_faceDescriptor user])
        <$> users →
  ∃ u, u ∈ users ∧ lfd_label c = u_id u ∧ lfd_name c = u_id u.
Proof.
  intros (u & -> & Hu)%list_elem_of_fmap. by exists u.
Qed.

(** X14: recognition names a user by the stored id.  On a store that can be
    read, with a draw of [Math.random()] in [0,1), [recognizeFaces] returns,
    leaves the stored users and records as they are, and either keeps the
    recognized user it had or sets one whose id is the id of a stored user
    and whose displayed name is that same id, not the registered name; in
    that case "already marked today" tells whether a record of that user
    dated today is stored.  With refs and a drawing context present, at least
    one stored user, and no stored id empty or equal to ["unknown"], a user
    is recognized on every run, whatever is in front of the camera. *)
Theorem recognizeFaces_names_by_id (fround : Q → Q) (m : Medium) (random : nat → Double) (now : Z)
    (video canvas ctx : bool) (st : MarkingState) (s : LocalStorage) :
  readable m s → (0 <= value (random 0%nat))%Q → (value (random 0%nat) < 1)%Q →
  ∃ st' s',
    recognizeFaces fround m random now video canvas ctx st s = (Returned st', s') ∧
    identities s' = identities s ∧ events s' = events s ∧
    (st' = st ∨
     ∃ u, u ∈ identities s ∧
          am_recognizedUser st' = Some (mkRecognized (u_id u) (u_id u)) ∧
          (am_alreadyMarkedToday st' = true
           ↔ ∃ r, r ∈ events s ∧ r_userId r = u_id u ∧ r_date r = date_of now)) ∧
    (video = true → canvas = true → ctx = true → identities s ≠ [] →
     (∀ x, x ∈ identities s → u_id x ≠ "" ∧ u_id x ≠ "unknown") →
     ∃ u r, u ∈ identities s ∧ am_recognizedUser st' = Some r ∧ rec_id r = u_id u).
Proof.
  intros Hr Hlo Hhi. unfold recognizeFaces.
  destruct (negb video || negb canvas) eqn:Hrefs.
  { eexists _, _. split; [reflexivity |]. split_and!; [done | done | by left |].
    intros -> ->. done. }
  destruct (getUsersData_readable fround m s Hr) as (s0 & Hdata & Hi & He & Hr0).
  unfold bind at 1. rewrite Hdata.
  set (candidates := (λ user, new_MockLabeledFaceDescriptors (u_id user)
                                [fround <$> u_faceDescriptor user]) <$> identities s) in *.
  assert (Hcase : candidates = [] ∨ candidates ≠ [])
    by (destruct candidates; [by left | by right]).
  destruct Hcase as [Hnil | Hcne].
  { rewrite Hnil. eexists _, _. split; [reflexivity |]. split_and!; [done | done | by left |].
    intros _ _ _ Hne. subst candidates. by destruct (identities s). }
  replace (length candidates =? 0)%nat with false
    by (symmetry; apply Nat.eqb_neq; destruct candidates; [done | simpl; lia]).
  destruct ctx.
  2:{ eexists _, _. split; [reflexivity |]. split_and!; [done | done | by left |].
      intros _ _ Hctx. done. }
  unfold mockResizeResults, mockDetectAllFaces.
  change (0 <? length [mockDetection])%nat with true. cbn iota. unfold recognize_loop. unfold bind at 1, lift.
  destruct (MatcherProperties.mockFindBestMatch_selects (random 0%nat) (descriptor mockDetection)
              candidates Hcne Hlo Hhi) as (c & Hc & ->).
  apply list_elem_of_lookup_2 in Hc.
  destruct (candidate_of_user fround (identities s) c Hc) as (u & Hu & Hlabel & Hname).
  cbn [label].
  destruct (list_find_elem_of (λ desc, lfd_label desc = lfd_label c) candidates c Hc eq_refl)
    as [[j user] Hfind].
  pose proof Hfind as (Hj & Hlabel' & _)%list_find_Some.
  apply list_elem_of_lookup_2 in Hj.
  destruct (candidate_of_user fround (identities s) user Hj) as (u' & Hu' & Hl' & Hn').
  destruct (checkAttendanceStatus_state m now (lfd_label c) s0 Hr0)
    as (status & s1 & Hcheck & Hiff & Hi1 & He1 & _).
  assert (Hset :
    ∃ st' s',
      (let* status := checkAttendanceStatus m now (lfd_label c) in
       ret (setAlreadyMarkedToday (markedToday status)
              (setRecognizedUser (Some (mkRecognized (lfd_label c) (lfd_name user))) st))) s0
      = (Returned st', s') ∧
      identities s' = identities s ∧ events s' = events s ∧
      am_recognizedUser st' = Some (mkRecognized (u_id u) (u_id u)) ∧
      (am_alreadyMarkedToday st' = true
       ↔ ∃ r, r ∈ events s ∧ r_userId r = u_id u ∧ r_date r = date_of now)).
  { unfold bind. rewrite Hcheck. eexists _, _. split; [reflexivity |].
    split_and!; [congruence | congruence | |].
    - simpl. do 2 f_equal; congruence.
    - simpl. rewrite Hiff, He, Hlabel. done. }
  destruct Hset as (stn & sn & Hrunn & Hin & Hen & Hrecn & Hflagn).
  destruct (bool_decide (lfd_label c ≠ "unknown")) eqn:Hunknown.
  2:{ eexists _, _. split; [reflexivity |]. split_and!; [done | done | by left |].
      intros _ _ _ _ Hids. apply bool_decide_eq_false in Hunknown.
      destruct Hunknown. rewrite Hlabel. by apply Hids. }
  rewrite Hfind.
  destruct (truthy (lfd_name user)) eqn:Hnamed.
  2:{ eexists _, _. split; [reflexivity |]. split_and!; [done | done | by left |].
      intros _ _ _ _ Hids. apply truthy_false in Hnamed.
      rewrite Hn' in Hnamed. by destruct (Hids u' Hu'). }
  destruct (am_recognizedUser st) as [r0 |] eqn:Hr0st.
  - destruct (bool_decide (rec_id r0 ≠ lfd_label c)) eqn:Hother.
    + rewrite Hrunn. exists stn, sn. split_and!; [done | done | done | right; by exists u |].
      intros _ _ _ _ _. by exists u, (mkRecognized (u_id u) (u_id u)).
    + apply bool_decide_eq_false in Hother. apply dec_stable in Hother.
      eexists _, _. split; [reflexivity |]. split_and!; [done | done | by left |].
      intros _ _ _ _ _. exists u, r0. split_and!; [done | done | congruence].
  - rewrite Hrunn. exists stn, sn. split_and!; [done | done | done | right; by exists u |].
    intros _ _ _ _ _. by exists u, (mkRecognized (u_id u) (u_id u)).
Qed.

Lemma recognizeFaces_names_by_id_witness :
  ∃ st' s',
    recognizeFaces (λ q, q) healthy (λ _, one_half) t_evening true true true
      (mkMarkingState false false None None false false true false None)
      (mkStorage (Holds [bob]) (Holds [bob_morning])) = (Returned st', s') ∧
    ∃ u r, u ∈ [bob] ∧ am_recognizedUser st' = Some r ∧ rec_id r = u_id u.
Proof.
  destruct (recognizeFaces_names_by_id (λ q, q) healthy (λ _, one_half) t_evening true true true
              (mkMarkingState false false None None false false true false None)
              (mkStorage (Holds [bob]) (Holds [bob_morning])))
    as (st' & s' & Hrun & _ & _ & _ & Hseen).
  - split; [reflexivity | left; reflexivity].
  - done.
  - reflexivity.
  - exists st', s'. split; [exact Hrun |].
    apply Hseen; try reflexivity; [discriminate |].
    intros x Hx. apply list_elem_of_singleton in Hx. subst x. split; discriminate.
Defined.

(** *** [AdminDashboard] *)

Lemma append_String (c : Ascii.ascii) (a b : string) :
  String.append (String c a) b = String c (String.append a b).
Proof. reflexivity. Qed.

Lemma append_empty (b : string) : String.append "" b = b.
Proof. reflexivity. Qed.

Lemma prefix_spec (t s : string) :
  String.prefix t s = true ↔ ∃ b, s = String.append t b.
Proof.
  revert s. induction t as [| c t IH]; intros s.
  - split; [intros _; by exists s | intros _; by destruct s].
  - destruct s as [| c' s]; simpl.
    + split; [done | intros [b Hb]; by rewrite append_String in Hb].
    + destruct (Ascii.ascii_dec c c') as [-> | Hne].
      * rewrite IH. split; intros [b Hb]; exists b; rewrite append_String in *; congruence.
      * split; [done | intros [b Hb]; rewrite append_String in Hb; congruence].
Qed.

Lemma includes_spec (s t : string) :
  includes s t = true ↔ ∃ a b, s = String.append a (String.append t b).
Proof.
  induction s as [| c s IH].
  - cbn [includes]. rewrite orb_false_r, prefix_spec. split.
    + intros [b Hb]. by exists "", b.
    + intros (a & b & Hab). destruct a as [| c a];
        [exists b; by rewrite append_empty in Hab | by rewrite append_String in Hab].
  - cbn [includes]. rewrite orb_true_iff, prefix_spec, IH. split.
    + intros [[b Hb] | (a & b & Hab)]; [by exists "", b |].
      exists (String c a), b. by rewrite append_String, Hab.
    + intros (a & b & Hab). destruct a as [| c' a].
      * left. exists b. by rewrite append_empty in Hab.
      * right. exists a, b. rewrite append_String in Hab. congruence.
Qed.

Lemma StronglySorted_filter {A} (R : A → A → Prop) (P : A → Prop) `{∀ x, Decision (P x)}
    (l : list A) :
  StronglySorted R l → StronglySorted R (filter P l).
Proof.
  induction 1 as [| x l _ IH Hx]; [constructor |].
  rewrite filter_cons. destruct (decide (P x)); [| done].
  constructor; [done |].
  apply Forall_forall. intros y Hy. apply list_elem_of_filter in Hy as [_ Hy].
  by apply (proj1 (Forall_forall _ _) Hx).
Qed.

(** X15: the filters of the dashboard only select.  With an empty search
    term and no date the list is unchanged.  Otherwise the result is the
    sublist, in the same order, of the records whose lower-cased name
    contains the lower-cased term (when a term is given) and whose date is
    the chosen one (when a date is given): nothing is added, reordered or
    repeated, and a list that is newest first stays newest first. *)
Theorem filterRecords_selects (toLowerCase : string → string) (searchTerm : string)
    (dateFilter : option Z) (records : list AttendanceRecord) :
  filterRecords toLowerCase "" None records = records ∧
  filterRecords toLowerCase searchTerm dateFilter records `sublist_of` records ∧
  (∀ r, r ∈ filterRecords toLowerCase searchTerm dateFilter records
        ↔ r ∈ records ∧
          (searchTerm = "" ∨
           ∃ a b, toLowerCase (r_userName r)
                  = String.append a (String.append (toLowerCase searchTerm) b)) ∧
          (∀ d, dateFilter = Some d → r_date r = d)) ∧
  (StronglySorted newer_or_same records →
   StronglySorted newer_or_same (filterRecords toLowerCase searchTerm dateFilter records)).
Proof.
  unfold filterRecords. split_and!.
  - reflexivity.
  - destruct (truthy searchTerm), dateFilter as [d |]; simpl;
      repeat (etrans; [apply sublist_filter |]); done.
  - intros r.
    destruct (truthy searchTerm) eqn:Hterm, dateFilter as [d |]; simpl;
      rewrite ?list_elem_of_filter, ?includes_spec;
      try apply truthy_true in Hterm; try apply truthy_false in Hterm.
    + split.
      * intros (Hd & Hinc & Hr). split_and!; [done | by right | by intros ? [= <-]].
      * intros (Hr & [-> | Hinc] & Hd); [done |]. split_and!; [by apply Hd | done | done].
    + split.
      * intros (Hinc & Hr). split_and!; [done | by right | done].
      * intros (Hr & [-> | Hinc] & _); [done |]. by split.
    + split.
      * intros (Hd & Hr). split_and!; [done | by left | by intros ? [= <-]].
      * intros (Hr & _ & Hd). split; [by apply Hd | done].
    + split.
      * intros Hr. split_and!; [done | by left | done].
      * by intros (Hr & _).
  - intros Hs.
    destruct (truthy searchTerm), dateFilter as [d |]; simpl;
      repeat apply StronglySorted_filter; done.
Qed.

Lemma filterRecords_selects_witness :
  StronglySorted newer_or_same
    (filterRecords (λ x, x) "Bo" (Some 19723) [bob_next_day; bob_morning]).
Proof.
  apply (filterRecords_selects (λ x, x) "Bo" (Some 19723) [bob_next_day; bob_morning]).
  unfold newer_or_same. repeat constructor; vm_compute; discriminate.
Defined.

Lemma filterRecords_sorted (toLowerCase : string → string) (searchTerm : string)
    (dateFilter : option Z) (records : list AttendanceRecord) :
  StronglySorted newer_or_same records →
  StronglySorted newer_or_same (filterRecords toLowerCase searchTerm dateFilter records).
Proof.
  intros Hs. unfold filterRecords.
  destruct (truthy searchTerm), dateFilter as [d |]; simpl;
    repeat apply StronglySorted_filter; done.
Qed.

Lemma getAllUsers_state (m : Medium) (s : LocalStorage) :
  snd (getAllUsers m s) = snd (initializeStorage m s).
Proof.
  unfold getAllUsers. apply after_initializeStorage. intros s'.
  apply (read_users_pure m
           (fmap (λ user, mkSummary (u_id user) (u_name user) (u_email user)
                                    (u_registeredAt user)))).
Qed.

Lemma getAttendanceRecords_state (m : Medium) (s : LocalStorage) :
  snd (getAttendanceRecords m s) = snd (initializeStorage m s).
Proof.
  unfold getAttendanceRecords. apply after_initializeStorage. intros s'.
  apply (read_attendance_pure m (Array_sort newest_first)).
Qed.

Lemma initializeStorage_lists (m : Medium) (s : LocalStorage) :
  identities (snd (initializeStorage m s)) = identities s ∧
  events (snd (initializeStorage m s)) = events s.
Proof.
  destruct (initializeStorage_kept m s) as (s0 & -> & Ku & Kr). simpl.
  unfold identities, events. by rewrite (item_kept_list _ _ Ku), (item_kept_list _ _ Kr).
Qed.

Lemma getAllUsers_readable (m : Medium) (s : LocalStorage) :
  readable m s →
  ∃ s0,
    getAllUsers m s
    = (Returned ((λ user, mkSummary (u_id user) (u_name user) (u_email user)
                            (u_registeredAt user)) <$> identities s), s0) ∧
    events s0 = events s ∧ readable m s0.
Proof.
  intros Hr. pose proof Hr as [Hon _].
  destruct (initializeStorage_readable m s Hr) as (s0 & Hs0 & Hi & He & Hgu & Hgr).
  exists s0. split_and!; [| done | split; auto].
  unfold getAllUsers. unfold bind at 1. rewrite Hs0.
  rewrite read_users by done. by rewrite Hi.
Qed.

(** X16: loading the dashboard never throws and never changes the stored
    users or records.  On a store that can be read it shows one row per
    stored user, with the user's id, name, email and registration time in
    stored order, and all stored records newest first, unfiltered, with the
    error cell untouched; whatever filters are applied afterwards, the
    listed records stay newest first.  On an offline medium it shows "Failed
    to load dashboard data. Please try again." and keeps the lists it had. *)
Theorem fetchData_loads (m : Medium) (st : DashboardState) (s : LocalStorage) :
  ∃ st' s',
    fetchData m st s = (Returned st', s') ∧
    db_isLoading st' = false ∧
    identities s' = identities s ∧ events s' = events s ∧
    (readable m s →
     db_error st' = db_error st ∧
     db_users st' = (λ user, mkSummary (u_id user) (u_name user) (u_email user)
                               (u_registeredAt user)) <$> identities s ∧
     db_attendanceRecords st' ≡ₚ events s ∧
     db_filteredRecords st' = db_attendanceRecords st' ∧
     (∀ toLowerCase, StronglySorted newer_or_same
                       (db_filteredRecords (applyFilters toLowerCase st')))) ∧
    (online m = false →
     db_error st' = Some "Failed to load dashboard data. Please try again." ∧
     db_users st' = db_users st ∧
     db_attendanceRecords st' = db_attendanceRecords st ∧
     db_filteredRecords st' = db_filteredRecords st).
Proof.
  unfold fetchData.
  pose proof (getAllUsers_state m s) as Hs1.
  destruct (getAllUsers m s) as [o1 s1] eqn:Hrun1. simpl in Hs1.
  pose proof (getAttendanceRecords_state m s1) as Hs2.
  destruct (getAttendanceRecords m s1) as [o2 s2] eqn:Hrun2. simpl in Hs2.
  assert (Hlists : identities s2 = identities s ∧ events s2 = events s).
  { subst s1 s2.
    destruct (initializeStorage_lists m s) as [Hi1 He1].
    destruct (initializeStorage_lists m (snd (initializeStorage m s))) as [Hi2 He2].
    split; congruence. }
  destruct Hlists as [Hi He].
  assert (Hreadable : readable m s →
            o1 = Returned ((λ user, mkSummary (u_id user) (u_name user) (u_email user)
                                      (u_registeredAt user)) <$> identities s) ∧
            o2 = Returned (Array_sort newest_first (events s))).
  { intros Hr. destruct (getAllUsers_readable m s Hr) as (s0 & Hrun0 & He0 & Hr0).
    rewrite Hrun1 in Hrun0. injection Hrun0 as -> ->. split; [done |].
    destruct (getAttendanceRecords_readable m s0 Hr0) as (s3 & Hrun3 & _).
    rewrite Hrun2 in Hrun3. injection Hrun3 as -> _. by rewrite He0. }
  assert (Hoffline : online m = false → ∃ e1 e2, o1 = Thrown e1 ∧ o2 = Thrown e2).
  { intros Hoff. revert Hrun1 Hrun2.
    unfold getAllUsers, getAttendanceRecords, bind, getItem_users, getItem_attendance.
    destruct (initializeStorage_kept m s) as (s0 & -> & _).
    destruct (initializeStorage_kept m s1) as (s0' & -> & _).
    rewrite Hoff. intros [= <- _] [= <- _]. by eexists _, _. }
  destruct o1 as [us | e1], o2 as [rs | e2];
    (eexists _, _; split; [reflexivity |]; split_and!; [done | done | done | |]).
  - intros Hr. destruct (Hreadable Hr) as [[= ->] [= ->]]. simpl.
    split_and!; [done | done | apply Array_sort_perm | done |].
    intros toLowerCase.
    apply (filterRecords_sorted toLowerCase), Array_sort_newest_first.
  - intros Hoff. destruct (Hoffline Hoff) as (? & ? & ? & ?). done.
  - intros Hr. destruct (Hreadable Hr) as [_ ?]. done.
  - done.
  - intros Hr. destruct (Hreadable Hr) as [? _]. done.
  - done.
  - intros Hr. destruct (Hreadable Hr) as [? _]. done.
  - done.
Qed.

Lemma fetchData_loads_witness :
  ∃ st' s',
    fetchData healthy (mkDashboardState [] [] [] true None "" None) two_day_store
    = (Returned st', s') ∧
    db_attendanceRecords st' ≡ₚ [bob_morning; bob_next_day].
Proof.
  destruct (fetchData_loads healthy (mkDashboardState [] [] [] true None "" None) two_day_store)
    as (st' & s' & Hrun & _ & _ & _ & Hread & _).
  exists st', s'. split; [exact Hrun |].
  apply Hread. split; [reflexivity | left; reflexivity].
Defined.

Lemma occurrences_append (c : Ascii.ascii) (a b : string) :
  occurrences c (String.append a b) = (occurrences c a + occurrences c b)%nat.
Proof.
  induction a as [| c' a IH]; [done |].
  rewrite append_String. simpl. rewrite IH. lia.
Qed.

Lemma concat_cons (sep h : string) (l : list string) :
  String.concat sep (h :: l)
  = String.append h (foldr (λ x acc, String.append sep (String.append x acc)) "" l).
Proof.
  revert h. induction l as [| x l IH]; intros h.
  - simpl. clear. induction h as [| c h IH]; [done |]. by rewrite append_String, <- IH.
  - change (String.concat sep (h :: x :: l))
      with (String.append h (String.append sep (String.concat sep (x :: l)))).
    rewrite IH. reflexivity.
Qed.

(** X17: the exported CSV has one line per listed record after the header
    line, and nothing in it is quoted.  The text starts with
    "Name,Date,Time"; with no record it is exactly that line.  The number of
    line breaks in it is the number of records plus the line breaks inside
    the names and time texts, and the number of commas is two for the header,
    two per record, plus the commas inside the fields: a name holding a comma
    or a line break goes into the file as it is. *)
Theorem csvContent_shape (date_text toLocaleTimeString : Z → string)
    (records : list AttendanceRecord) :
  let inside c :=
    sum_list ((λ r, occurrences c (r_userName r) + occurrences c (date_text (r_date r)) +
                    occurrences c (toLocaleTimeString (r_timestamp r)))%nat <$> records) in
  csvContent date_text toLocaleTimeString [] = "Name,Date,Time" ∧
  (∃ rest, csvContent date_text toLocaleTimeString records
           = String.append "Name,Date,Time" rest) ∧
  occurrences line_break (csvContent date_text toLocaleTimeString records)
  = (length records + inside line_break)%nat ∧
  occurrences comma (csvContent date_text toLocaleTimeString records)
  = (2 + 2 * length records + inside comma)%nat.
Proof.
  intros inside. unfold csvContent.
  change (String.concat "," ["Name"; "Date"; "Time"]) with "Name,Date,Time".
  rewrite !concat_cons.
  assert (Hrow : ∀ r, String.concat "," [r_userName r; date_text (r_date r);
                                          toLocaleTimeString (r_timestamp r)]
                      = String.append (r_userName r)
                          (String.append "," (String.append (date_text (r_date r))
                             (String.append "," (toLocaleTimeString (r_timestamp r))))))
    by reflexivity.
  split_and!.
  - reflexivity.
  - eexists. reflexivity.
  - rewrite occurrences_append. change (occurrences line_break "Name,Date,Time") with 0%nat.
    subst inside. cbn beta. induction records as [| r records IH]; [done |].
    rewrite !fmap_cons. cbn [foldr sum_list length sum_list_with].
    rewrite !occurrences_append, Hrow, !occurrences_append.
    change (occurrences line_break newline) with 1%nat.
    change (occurrences line_break ",") with 0%nat.
    unfold id in *. lia.
  - rewrite occurrences_append. change (occurrences comma "Name,Date,Time") with 2%nat.
    subst inside. cbn beta. induction records as [| r records IH]; [done |].
    rewrite !fmap_cons. cbn [foldr sum_list length sum_list_with].
    rewrite !occurrences_append, Hrow, !occurrences_append.
    change (occurrences comma newline) with 0%nat.
    change (occurrences comma ",") with 1%nat.
    unfold id in *. lia.
Qed.

End ComponentProperties.
